(** * Auto Comment action: classification, synthesis and placement

    A shallow embedding of
    [src/vs/editor/contrib/comment/browser/autoCommentAction.ts].

    JavaScript strings are sequences of UTF-16 code units; a code unit is
    modelled as an [N] and a string as a list of them.  The regular
    expressions of the source are kept as syntax trees and run by a
    backtracking matcher with JavaScript's priorities (ordered alternation,
    greedy quantifiers, leftmost match), so that [RegExp.prototype.test] and
    the capture groups of [String.prototype.match] are computed the way the
    engine computes them. *)

From Stdlib Require Import String Ascii.
From Stdlib Require Import List NArith Arith Bool Lia Permutation.
Import ListNotations.
Open Scope string_scope.
Open Scope list_scope.
Open Scope nat_scope.

(* ------------------------------------------------------------------ *)
(** ** Strings *)

Module JS.

Definition char := N.
Definition jsstring := list char.

(** A literal of the source, written as a Rocq string of ASCII characters. *)
Definition lit (s : string) : jsstring :=
  List.map N_of_ascii (list_ascii_of_string s).

Definition LF : char := 10%N.
Definition DQUOTE : char := 34%N.

(** ECMAScript [WhiteSpace] and [LineTerminator] code units: the set that
    [\s] matches and that [trim], [trimStart] strip. *)
Definition isWhiteSpace (c : char) : bool :=
  ((9 <=? c) && (c <=? 13) ||
   (c =? 32) || (c =? 160) || (c =? 5760) ||
   ((8192 <=? c) && (c <=? 8202)) ||
   (c =? 8232) || (c =? 8233) || (c =? 8239) || (c =? 8287) ||
   (c =? 12288) || (c =? 65279))%N.

(** [\w]: ASCII letters, digits and underscore.  Without the [u] flag the
    [i] flag does not enlarge the class. *)
Definition isWordChar (c : char) : bool :=
  ((48 <=? c) && (c <=? 57) ||
   (65 <=? c) && (c <=? 90) ||
   (c =? 95) ||
   (97 <=? c) && (c <=? 122))%N.

(** Case folding of the [i] flag, restricted to what an ASCII pattern
    character can match: a code unit above 127 never folds to ASCII. *)
Definition foldCase (c : char) : char :=
  if ((97 <=? c) && (c <=? 122))%N then (c - 32)%N else c.

Fixpoint trimStart (s : jsstring) : jsstring :=
  match s with
  | c :: s' => if isWhiteSpace c then trimStart s' else s
  | [] => []
  end.

Definition trimEnd (s : jsstring) : jsstring := rev (trimStart (rev s)).

Definition trim (s : jsstring) : jsstring := trimEnd (trimStart s).

(** [s.substring(0, n)] for [0 <= n]. *)
Definition substring0 (n : nat) (s : jsstring) : jsstring := firstn n s.

(** [s.split('\n')]: never empty, one more piece than there are separators. *)
Fixpoint split (sep : char) (s : jsstring) : list jsstring :=
  match s with
  | [] => [[]]
  | c :: s' =>
      if (c =? sep)%N then [] :: split sep s'
      else match split sep s' with
           | l :: ls => (c :: l) :: ls
           | [] => [[c]]
           end
  end.

Definition digit (d : nat) : char := (48 + N.of_nat d)%N.

Fixpoint uintDigits (u : Decimal.uint) : jsstring :=
  match u with
  | Decimal.Nil => []
  | Decimal.D0 u' => digit 0 :: uintDigits u'
  | Decimal.D1 u' => digit 1 :: uintDigits u'
  | Decimal.D2 u' => digit 2 :: uintDigits u'
  | Decimal.D3 u' => digit 3 :: uintDigits u'
  | Decimal.D4 u' => digit 4 :: uintDigits u'
  | Decimal.D5 u' => digit 5 :: uintDigits u'
  | Decimal.D6 u' => digit 6 :: uintDigits u'
  | Decimal.D7 u' => digit 7 :: uintDigits u'
  | Decimal.D8 u' => digit 8 :: uintDigits u'
  | Decimal.D9 u' => digit 9 :: uintDigits u'
  end.

(** The decimal text a template literal gives a non-negative integer. *)
Definition numberToString (n : nat) : jsstring := uintDigits (Nat.to_uint n).

End JS.

Import JS.

(* ------------------------------------------------------------------ *)
(** ** Regular expressions *)

Module RegExp.

Inductive regex : Type :=
| Empty : regex
| Bol : regex                        (* ^ *)
| Class : (char -> bool) -> regex    (* one code unit of a class *)
| Cat : regex -> regex -> regex
| Alt : regex -> regex -> regex      (* ordered: left first *)
| Star : regex -> regex              (* greedy *)
| Group : nat -> regex -> regex.     (* capturing group number n *)

Definition captures := nat -> option jsstring.

Definition noCaptures : captures := fun _ => None.

Definition setCapture (n : nat) (w : jsstring) (c : captures) : captures :=
  fun i => if Nat.eqb i n then Some w else c i.

Definition cont := nat -> jsstring -> captures -> option captures.

Definition orElse (a : option captures) (b : unit -> option captures) :=
  match a with
  | Some x => Some x
  | None => b tt
  end.

(** One greedy quantifier [*] around a matcher [body]: try one more
    iteration first and fall back to the continuation.  An iteration that
    consumes nothing is rejected, as the engine does, so the length of the
    input bounds the number of iterations and is the [fuel] the matcher
    passes. *)
Definition starLoop (body : nat -> jsstring -> captures -> cont ->
                            option captures) (k : cont)
  : nat -> nat -> jsstring -> captures -> option captures :=
  fix loop (fuel : nat) (pos : nat) (s : jsstring) (c : captures)
      {struct fuel} : option captures :=
    match fuel with
    | O => k pos s c
    | S fuel' =>
        orElse
          (body pos s c
                (fun pos' s' c' =>
                   if Nat.ltb (List.length s') (List.length s)
                   then loop fuel' pos' s' c'
                   else None))
          (fun _ => k pos s c)
    end.

(** The matcher, in continuation-passing style: [run r pos s c k] matches
    [r] at index [pos], where [s] is the input from [pos] on, and hands the
    rest to [k]; [None] is failure and makes the caller backtrack. *)
Fixpoint run (r : regex) (pos : nat) (s : jsstring) (c : captures)
         (k : cont) {struct r} : option captures :=
  match r with
  | Empty => k pos s c
  | Bol => if Nat.eqb pos 0 then k pos s c else None
  | Class p =>
      match s with
      | x :: s' => if p x then k (S pos) s' c else None
      | [] => None
      end
  | Cat r1 r2 => run r1 pos s c (fun pos' s' c' => run r2 pos' s' c' k)
  | Alt r1 r2 => orElse (run r1 pos s c k) (fun _ => run r2 pos s c k)
  | Star r1 => starLoop (run r1) k (List.length s) pos s c
  | Group n r1 =>
      run r1 pos s c
          (fun pos' s' c' =>
             k pos' s' (setCapture n (firstn (pos' - pos) s) c'))
  end.

Definition accept : cont := fun _ _ c => Some c.

(** The search for the leftmost match: every start index in turn. *)
Fixpoint execFrom (r : regex) (pos : nat) (s : jsstring) : option captures :=
  match run r pos s noCaptures accept with
  | Some c => Some c
  | None =>
      match s with
      | [] => None
      | _ :: s' => execFrom r (S pos) s'
      end
  end.

(** [s.match(r)] for a pattern without the [g] flag: the captures of the
    leftmost match, or [None] for [null]. *)
Definition exec (r : regex) (s : jsstring) : option captures := execFrom r 0 s.

(** [r.test(s)]. *)
Definition test (r : regex) (s : jsstring) : bool :=
  match exec r s with
  | Some _ => true
  | None => false
  end.

(** *** Pattern syntax *)

Definition Plus (r : regex) : regex := Cat r (Star r).
Definition Opt (r : regex) : regex := Alt r Empty.

(** A literal character under the [i] flag. *)
Definition ChrI (a : char) : regex :=
  Class (fun c => N.eqb (foldCase c) (foldCase a)).

(** A literal character of a case-sensitive pattern. *)
Definition Chr (a : char) : regex := Class (fun c => N.eqb c a).

Fixpoint seqOf (rs : list regex) : regex :=
  match rs with
  | [] => Empty
  | [r] => r
  | r :: rs' => Cat r (seqOf rs')
  end.

Fixpoint anyOf (rs : list regex) : regex :=
  match rs with
  | [] => Class (fun _ => false)
  | [r] => r
  | r :: rs' => Alt r (anyOf rs')
  end.

(** A keyword under the [i] flag. *)
Definition KwI (s : string) : regex := seqOf (List.map ChrI (lit s)).

Definition S_ : regex := Class isWhiteSpace.                       (* \s *)
Definition W_ : regex := Class isWordChar.                         (* \w *)
Definition WAngle : regex :=                                       (* [\w<>] *)
  Class (fun c => isWordChar c || N.eqb c 60 || N.eqb c 62).

Definition LPAREN : char := 40%N.
Definition LBRACE : char := 123%N.
Definition STAR : char := 42%N.
Definition COLON : char := 58%N.
Definition SEMI : char := 59%N.
Definition EQUALS : char := 61%N.

End RegExp.

Import RegExp.

(* ------------------------------------------------------------------ *)
(** ** The action *)

Module AutoCommentAction.

(** *** The patterns of the helper methods, in source order *)

Definition keywords (ks : list string) : regex := anyOf (List.map KwI ks).

(** The second alternative below, "const\s+\w+\s*=\s*\(". *)
Definition reArrowAssignment : regex :=
  seqOf [KwI "const"; Plus S_; Plus W_; Star S_; ChrI EQUALS; Star S_;
         ChrI LPAREN].

(** First pattern of [isFunctionDeclaration]: case-insensitive, anchored at
    the start, one group of seven alternatives, in this order:
    "function\s+\w+", "const\s+\w+\s*=\s*\(", "\w+\s*\(",
    "async\s+function", "\w+\s*:\s*function", "export\s+function",
    "function\s*\*". *)
Definition reFunctionJs : regex :=
  Cat Bol
      (Group 1
         (anyOf
            [ seqOf [KwI "function"; Plus S_; Plus W_];
              reArrowAssignment;
              seqOf [Plus W_; Star S_; ChrI LPAREN];
              seqOf [KwI "async"; Plus S_; KwI "function"];
              seqOf [Plus W_; Star S_; ChrI COLON; Star S_; KwI "function"];
              seqOf [KwI "export"; Plus S_; KwI "function"];
              seqOf [KwI "function"; Star S_; ChrI STAR] ])).

(** The common head "^(public|private|protected)?\s*(<modifier>\s+)?". *)
Definition reModifiers (modifier : string) : regex :=
  seqOf [ Bol;
          Opt (Group 1 (keywords ["public"; "private"; "protected"]));
          Star S_;
          Opt (Group 2 (Cat (KwI modifier) (Plus S_))) ].

(** Source pattern: "/^(public|private|protected)?\s*(static\s+)?[\w<>]+\s+\w+\s*\(/i" *)
Definition reFunctionMethod : regex :=
  seqOf [ reModifiers "static"; Plus WAngle; Plus S_; Plus W_; Star S_;
          ChrI LPAREN ].

(** Source pattern: "/^def\s+\w+\s*\(/i" *)
Definition reFunctionDef : regex :=
  seqOf [ Bol; KwI "def"; Plus S_; Plus W_; Star S_; ChrI LPAREN ].

(** Source pattern: "/function\s+(\w+)/i" *)
Definition reNameFunction : regex :=
  seqOf [ KwI "function"; Plus S_; Group 1 (Plus W_) ].

(** Source pattern: "/const\s+(\w+)\s*=/i" *)
Definition reNameConst : regex :=
  seqOf [ KwI "const"; Plus S_; Group 1 (Plus W_); Star S_; ChrI EQUALS ].

(** Source pattern: "/(\w+)\s*\(/" *)
Definition reNameCall : regex :=
  seqOf [ Group 1 (Plus W_); Star S_; Chr LPAREN ].

(** Source pattern: "/[\w<>]+\s+(\w+)\s*\(/" *)
Definition reNameMethod : regex :=
  seqOf [ Plus WAngle; Plus S_; Group 1 (Plus W_); Star S_; Chr LPAREN ].

(** Source pattern: "/def\s+(\w+)\s*\(/i" *)
Definition reNameDef : regex :=
  seqOf [ KwI "def"; Plus S_; Group 1 (Plus W_); Star S_; ChrI LPAREN ].

Definition declarators : list string :=
  ["var"; "let"; "const"; "int"; "string"; "boolean"; "double"; "float";
   "char"].

(** Source pattern: "/^(var|let|const|int|string|boolean|double|float|char)\s+\w+/i" *)
Definition reVariableKeyword : regex :=
  seqOf [ Bol; Group 1 (keywords declarators); Plus S_; Plus W_ ].

Definition EqOrSemi : regex :=
  Class (fun c => N.eqb c EQUALS || N.eqb c SEMI).

(** Source pattern: "/^(public|private|protected)?\s*(static\s+)?[\w<>]+\s+\w+\s*[=;]/i" *)
Definition reVariableField : regex :=
  seqOf [ reModifiers "static"; Plus WAngle; Plus S_; Plus W_; Star S_;
          EqOrSemi ].

(** Source pattern: "/(?:var|let|const|int|string|boolean|double|float|char)\s+(\w+)/i" *)
Definition reNameKeyword : regex :=
  seqOf [ keywords declarators; Plus S_; Group 1 (Plus W_) ].

(** Source pattern: "/[\w<>]+\s+(\w+)\s*[=;]/" *)
Definition reNameField : regex :=
  seqOf [ Plus WAngle; Plus S_; Group 1 (Plus W_); Star S_; EqOrSemi ].

Definition typeKeywords : list string :=
  ["class"; "interface"; "struct"; "enum"].

(** Source pattern: "/^(class|interface|struct|enum)\s+\w+/i" *)
Definition reClassKeyword : regex :=
  seqOf [ Bol; Group 1 (keywords typeKeywords); Plus S_; Plus W_ ].

(** Source pattern: "/^(public|private|protected)?\s*(abstract\s+)?class\s+\w+/i" *)
Definition reClassModified : regex :=
  seqOf [ reModifiers "abstract"; KwI "class"; Plus S_; Plus W_ ].

(** Source pattern: "/(?:class|interface|struct|enum)\s+(\w+)/i" *)
Definition reNameClass : regex :=
  seqOf [ keywords typeKeywords; Plus S_; Group 1 (Plus W_) ].

(** Source pattern: "/^(import|export|from|require)\s/i" *)
Definition reImportExport : regex :=
  seqOf [ Bol; Group 1 (keywords ["import"; "export"; "from"; "require"]);
          S_ ].

Definition ParenOrBrace : regex :=
  Class (fun c => N.eqb c LPAREN || N.eqb c LBRACE).

(** Source pattern: "/^(if|else|for|while|do|switch|case|try|catch|finally)\s*[\(\{]/i" *)
Definition reControlFlow : regex :=
  seqOf [ Bol;
          Group 1 (keywords ["if"; "else"; "for"; "while"; "do"; "switch";
                             "case"; "try"; "catch"; "finally"]);
          Star S_; ParenOrBrace ].

(** Source pattern: "/^<kw>\s*<delim>/i", the shape of the five tests of
    [getControlFlowType]. *)
Definition reLeading (kw : string) (delim : char) : regex :=
  seqOf [ Bol; KwI kw; Star S_; ChrI delim ].

(** *** Helper methods for code analysis *)

Definition isFunctionDeclaration (line : jsstring) : bool :=
  test reFunctionJs line || test reFunctionMethod line ||
  test reFunctionDef line.

(** [match[1]] of a match object. *)
Definition group1 (m : captures) : option jsstring := m 1.

Definition extractFunctionName (line : jsstring) : option jsstring :=
  match exec reNameFunction line with
  | Some m => group1 m
  | None =>
  match exec reNameConst line with
  | Some m => group1 m
  | None =>
  match exec reNameCall line with
  | Some m => group1 m
  | None =>
  match exec reNameMethod line with
  | Some m => group1 m
  | None =>
  match exec reNameDef line with
  | Some m => group1 m
  | None => None
  end end end end end.

Definition isVariableDeclaration (line : jsstring) : bool :=
  test reVariableKeyword line || test reVariableField line.

Definition extractVariableName (line : jsstring) : option jsstring :=
  match exec reNameKeyword line with
  | Some m => group1 m
  | None =>
      match exec reNameField line with
      | Some m => group1 m
      | None => None
      end
  end.

Definition isClassDeclaration (line : jsstring) : bool :=
  test reClassKeyword line || test reClassModified line.

Definition extractClassName (line : jsstring) : option jsstring :=
  match exec reNameClass line with
  | Some m => group1 m
  | None => None
  end.

Definition isImportExport (line : jsstring) : bool :=
  test reImportExport line.

Definition isControlFlow (line : jsstring) : bool :=
  test reControlFlow line.

Definition getControlFlowType (line : jsstring) : jsstring :=
  if test (reLeading "if" LPAREN) line then lit "Conditional"
  else if test (reLeading "for" LPAREN) line then lit "Loop"
  else if test (reLeading "while" LPAREN) line then lit "Loop"
  else if test (reLeading "switch" LPAREN) line then lit "Switch"
  else if test (reLeading "try" LBRACE) line then lit "Error handling"
  else lit "Control flow".

(** [name ? `<label>: ${name}` : '<fallback>'] : [null], [undefined] and the
    empty string are falsy. *)
Definition labelled (label fallback : string) (name : option jsstring)
  : jsstring :=
  match name with
  | Some (c :: w) => lit label ++ lit ": " ++ c :: w
  | _ => lit fallback
  end.

(** The comment [generateCommentForCurrentContext] builds from the trimmed
    line. *)
Definition contextComment (trimmedLine : jsstring) : jsstring :=
  if isFunctionDeclaration trimmedLine then
    lit "// " ++
    labelled "Function" "Function definition" (extractFunctionName trimmedLine)
  else if isVariableDeclaration trimmedLine then
    lit "// " ++
    labelled "Variable" "Variable declaration"
             (extractVariableName trimmedLine)
  else if isClassDeclaration trimmedLine then
    lit "// " ++
    labelled "Class" "Class definition" (extractClassName trimmedLine)
  else if isImportExport trimmedLine then
    lit "// Module import/export"
  else if isControlFlow trimmedLine then
    lit "// " ++ getControlFlowType trimmedLine ++ lit " statement"
  else
    lit "// TODO: Add description".

Definition count (p : jsstring -> bool) (lines : list jsstring) : nat :=
  List.length (List.filter p lines).

Definition functionCount (lines : list jsstring) : nat :=
  count (fun line => isFunctionDeclaration (trim line)) lines.

Definition variableCount (lines : list jsstring) : nat :=
  count (fun line => isVariableDeclaration (trim line)) lines.

Definition plural (n : nat) : jsstring :=
  if Nat.ltb 1 n then lit "s" else [].

(** The comment [generateCommentForSelection] builds from the lines of the
    selected text. *)
Definition linesComment (lines : list jsstring) : jsstring :=
  match lines with
  | [line] =>
      let trimmedLine := trim line in
      if isFunctionDeclaration trimmedLine then
        lit "// " ++
        labelled "Function" "Function definition"
                 (extractFunctionName trimmedLine)
      else lit "// Selected code block"
  | _ =>
      let fc := functionCount lines in
      let vc := variableCount lines in
      if Nat.ltb 0 fc then
        lit "// Code block with " ++ numberToString fc ++ lit " function" ++
        plural fc
      else if Nat.ltb 0 vc then
        lit "// Code block with " ++ numberToString vc ++ lit " variable" ++
        plural vc
      else
        lit "// Code block (" ++ numberToString (List.length lines) ++
        lit " lines)"
  end.

Definition selectionComment (selectedText : jsstring) : jsstring :=
  linesComment (split LF selectedText).

(** *** Placement *)

(** What [insertComment] asks of the editor: one edit with an empty range at
    [(editLine, editColumn)], then the caret position. *)
Record InsertionPlan : Type := mkPlan {
  editLine : nat;
  editColumn : nat;
  editText : jsstring;
  caretLine : nat;
  caretColumn : nat
}.

(** [lineContent.substring(0, lineContent.length - lineContent.trimStart().length)] *)
Definition indentationOf (lineContent : jsstring) : jsstring :=
  substring0 (List.length lineContent - List.length (trimStart lineContent))
             lineContent.

Definition insertComment (lineNumber : nat) (lineContent : jsstring)
           (comment : jsstring) : InsertionPlan :=
  let indentation := indentationOf lineContent in
  {| editLine := lineNumber;
     editColumn := 1;
     editText := indentation ++ comment ++ [LF];
     caretLine := lineNumber;
     caretColumn := List.length comment + List.length indentation + 1 |}.

(** The two entry points, given what the editor model returns:
    [getLineContent] of the caret or selection start line and
    [getValueInRange] of the selection. *)
Definition generateCommentForCurrentContext (lineNumber : nat)
           (line : jsstring) : InsertionPlan :=
  insertComment lineNumber line (contextComment (trim line)).

Definition generateCommentForSelection (startLineNumber : nat)
           (startLine : jsstring) (selectedText : jsstring) : InsertionPlan :=
  insertComment startLineNumber startLine (selectionComment selectedText).

(** *** The classification the cascade computes *)

Inductive Category : Type :=
| CFunction | CVariable | CTypeDeclaration | CImportExport | CControlFlow
| CGeneric.

Record ClassificationResult : Type := mkResult {
  category : Category;
  identifier : option jsstring;
  controlFlowKind : option jsstring
}.

(** The branch of [generateCommentForCurrentContext] a trimmed line takes,
    with the name or kind that branch computes. *)
Definition classify (trimmedText : jsstring) : ClassificationResult :=
  if isFunctionDeclaration trimmedText then
    mkResult CFunction (extractFunctionName trimmedText) None
  else if isVariableDeclaration trimmedText then
    mkResult CVariable (extractVariableName trimmedText) None
  else if isClassDeclaration trimmedText then
    mkResult CTypeDeclaration (extractClassName trimmedText) None
  else if isImportExport trimmedText then
    mkResult CImportExport None None
  else if isControlFlow trimmedText then
    mkResult CControlFlow None (Some (getControlFlowType trimmedText))
  else
    mkResult CGeneric None None.

(** The comment body of a classification: the text after the [// ] marker. *)
Definition synthesize (r : ClassificationResult) : jsstring :=
  match category r with
  | CFunction => labelled "Function" "Function definition" (identifier r)
  | CVariable => labelled "Variable" "Variable declaration" (identifier r)
  | CTypeDeclaration => labelled "Class" "Class definition" (identifier r)
  | CImportExport => lit "Module import/export"
  | CControlFlow =>
      match controlFlowKind r with
      | Some kind => kind ++ lit " statement"
      | None => lit " statement"
      end
  | CGeneric => lit "TODO: Add description"
  end.

End AutoCommentAction.

Import AutoCommentAction.

(* ------------------------------------------------------------------ *)
(** ** Inputs used by the statements below *)

Module Samples.

(** The selection of the test "should handle code selection". *)
Definition ifBlock : jsstring :=
  lit "if (condition) {" ++ [LF] ++ lit "    doSomething();" ++ [LF] ++
  lit "}".

(** The line of the test "should detect variable declaration". *)
Definition constLine : jsstring :=
  lit "const userName = " ++ [DQUOTE] ++ lit "John Doe" ++ [DQUOTE] ++
  lit ";".

(** Two function declarations and one variable declaration. *)
Definition twoFunctionsOneVariable : jsstring :=
  lit "function first() {}" ++ [LF] ++ lit "let total = 0;" ++ [LF] ++
  lit "function second() {}".

End Samples.

Import Samples.

(* ------------------------------------------------------------------ *)
(** ** Direct definitions the patterns and helpers are compared with *)

Module Reference.

(** The longest prefix of white space, by direct recursion. *)
Fixpoint leadingWhiteSpace (s : jsstring) : jsstring :=
  match s with
  | c :: s' => if isWhiteSpace c then c :: leadingWhiteSpace s' else []
  | [] => []
  end.

(** A line with no character other than white space; the empty line is
    one. *)
Definition isBlank (s : jsstring) : bool := forallb isWhiteSpace s.

(** The language of a pattern, positions and captures left aside. *)
Inductive matches : regex -> jsstring -> Prop :=
| MEmpty : matches Empty []
| MBol : matches Bol []
| MClass p x : p x = true -> matches (Class p) [x]
| MCat r1 r2 u v :
    matches r1 u -> matches r2 v -> matches (Cat r1 r2) (u ++ v)
| MAltL r1 r2 u : matches r1 u -> matches (Alt r1 r2) u
| MAltR r1 r2 u : matches r2 u -> matches (Alt r1 r2) u
| MStarNil r : matches (Star r) []
| MStarCons r u v :
    matches r u -> matches (Star r) v -> matches (Star r) (u ++ v)
| MGroup n r u : matches r u -> matches (Group n r) u.

(** Every group numbered 1 of the pattern only matches words of [P]. *)
Fixpoint groupsSat (P : jsstring -> Prop) (r : regex) : Prop :=
  match r with
  | Group n r1 =>
      (n = 1 -> forall w, matches r1 w -> P w) /\ groupsSat P r1
  | Cat r1 r2 | Alt r1 r2 => groupsSat P r1 /\ groupsSat P r2
  | Star r1 => groupsSat P r1
  | Empty | Bol | Class _ => True
  end.

(** Group 1 of a match object, when set, is in [P]. *)
Definition capOk (P : jsstring -> Prop) (c : captures) : Prop :=
  match c 1 with
  | Some w => P w
  | None => True
  end.

(** A non-empty run of word characters. *)
Definition isIdentifier (w : jsstring) : Prop :=
  w <> [] /\ forallb isWordChar w = true.

(** The greedy quantifier around a single character class, by recursion on
    the input: as many characters as possible first. *)
Fixpoint greedyClass (p : char -> bool) (k : cont) (pos : nat)
         (s : jsstring) (c : captures) : option captures :=
  match s with
  | x :: s' =>
      if p x
      then orElse (greedyClass p k (S pos) s' c) (fun _ => k pos s c)
      else k pos s c
  | [] => k pos s c
  end.

(** [Some rest] when [s] starts with [kw] up to ASCII case. *)
Fixpoint stripPrefixI (kw s : jsstring) : option jsstring :=
  match kw with
  | [] => Some s
  | a :: kw' =>
      match s with
      | x :: s' =>
          if N.eqb (foldCase x) (foldCase a) then stripPrefixI kw' s'
          else None
      | [] => None
      end
  end.

(** A delimiter that the [i] flag leaves alone and that is not white
    space. *)
Definition plainDelimiter (d : char) : Prop :=
  isWhiteSpace d = false /\
  forall x, N.eqb (foldCase x) (foldCase d) = N.eqb x d.

(** The line starts with the keyword, then optional white space, then the
    delimiter. *)
Definition leads (kw : string) (delim : char) (line : jsstring) : bool :=
  match stripPrefixI (lit kw) line with
  | Some rest =>
      match trimStart rest with
      | x :: _ => N.eqb x delim
      | [] => false
      end
  | None => false
  end.

(** The lookup of the control-flow kind on keyword and delimiter. *)
Definition kindByLeadingToken (line : jsstring) : jsstring :=
  if leads "if" LPAREN line then lit "Conditional"
  else if leads "for" LPAREN line || leads "while" LPAREN line
       then lit "Loop"
  else if leads "switch" LPAREN line then lit "Switch"
  else if leads "try" LBRACE line then lit "Error handling"
  else lit "Control flow".

(** The first word of a line. *)
Fixpoint leadingWord (s : jsstring) : jsstring :=
  match s with
  | x :: s' => if isWordChar x then x :: leadingWord s' else []
  | [] => []
  end.

Fixpoint sameWordI (a b : jsstring) : bool :=
  match a, b with
  | [], [] => true
  | x :: a', y :: b' => N.eqb (foldCase x) (foldCase y) && sameWordI a' b'
  | _, _ => false
  end.

(** The lookup on the leading keyword alone, as the specification words
    it. *)
Definition kindByKeyword (line : jsstring) : jsstring :=
  let kw := leadingWord line in
  if sameWordI kw (lit "if") then lit "Conditional"
  else if sameWordI kw (lit "for") || sameWordI kw (lit "while")
       then lit "Loop"
  else if sameWordI kw (lit "switch") then lit "Switch"
  else if sameWordI kw (lit "try") then lit "Error handling"
  else lit "Control flow".

End Reference.

Import Reference.

(* ------------------------------------------------------------------ *)
(** ** Shapes of patterns and relations between lines *)

Module Shapes.

(** No start-of-input assertion anywhere in the pattern. *)
Fixpoint bolFree (r : regex) : bool :=
  match r with
  | Bol => false
  | Cat r1 r2 | Alt r1 r2 => bolFree r1 && bolFree r2
  | Star r1 | Group _ r1 => bolFree r1
  | Empty | Class _ => true
  end.

(** Start-of-input assertions only where nothing has been consumed yet. *)
Fixpoint leadBol (r : regex) : bool :=
  match r with
  | Bol => true
  | Cat r1 r2 => leadBol r1 && bolFree r2
  | Alt r1 r2 => leadBol r1 && leadBol r2
  | Group _ r1 => leadBol r1
  | Star r1 => bolFree r1
  | Empty | Class _ => true
  end.

(** Every way through the pattern passes group 1. *)
Fixpoint setsGroup1 (r : regex) : bool :=
  match r with
  | Group n r1 => Nat.eqb n 1 || setsGroup1 r1
  | Cat r1 r2 => setsGroup1 r1 || setsGroup1 r2
  | Alt r1 r2 => setsGroup1 r1 && setsGroup1 r2
  | Empty | Bol | Class _ | Star _ => false
  end.

(** Every character class of the pattern is blind to ASCII case. *)
Fixpoint caseBlind (r : regex) : Prop :=
  match r with
  | Class p => forall x, p (foldCase x) = p x
  | Cat r1 r2 | Alt r1 r2 => caseBlind r1 /\ caseBlind r2
  | Star r1 | Group _ r1 => caseBlind r1
  | Empty | Bol => True
  end.

(** Two strings that differ at most in the case of ASCII letters. *)
Definition sameUpToCase (s t : jsstring) : Prop :=
  List.map foldCase s = List.map foldCase t.

Definition isSome (o : option captures) : bool :=
  match o with
  | Some _ => true
  | None => false
  end.

Definition notLF (c : char) : bool := negb (N.eqb c LF).

(** A string without a line feed. *)
Definition oneLine (s : jsstring) : bool := forallb notLF s.

(** The alternatives of the first function pattern that need no name:
    "async\s+function", "\w+\s*:\s*function", "export\s+function" and
    "function\s*\*", anchored at the start. *)
Definition reUnnamedFunction : regex :=
  Cat Bol
      (anyOf
         [ seqOf [KwI "async"; Plus S_; KwI "function"];
           seqOf [Plus W_; Star S_; ChrI COLON; Star S_; KwI "function"];
           seqOf [KwI "export"; Plus S_; KwI "function"];
           seqOf [KwI "function"; Star S_; ChrI STAR] ]).

(** The number of line feeds of a text. *)
Definition lineFeeds (s : jsstring) : nat :=
  List.length (List.filter (N.eqb LF) s).

(** [extractFunctionName] cut after its third pattern. *)
Definition extractFunctionNameJs (line : jsstring) : option jsstring :=
  match exec reNameFunction line with
  | Some m => group1 m
  | None =>
  match exec reNameConst line with
  | Some m => group1 m
  | None =>
  match exec reNameCall line with
  | Some m => group1 m
  | None => None
  end end end.

End Shapes.

Import Shapes.

(* ------------------------------------------------------------------ *)
(** ** Basic facts about strings and counting *)

Section StringFacts.

Lemma split_no_separator (sep : char) (s : jsstring) :
  ~ In sep s -> split sep s = [s].
Proof.
  induction s as [|x s IH]; intros Hnot; [reflexivity|].
  cbn [split].
  destruct (N.eqb_spec x sep) as [->|Hne].
  - exfalso. apply Hnot. now left.
  - rewrite IH; [reflexivity|].
    intros Hin. apply Hnot. now right.
Qed.

Lemma split_nonempty (sep : char) (s : jsstring) : split sep s <> [].
Proof.
  destruct s as [|x s]; cbn [split]; [discriminate|].
  destruct (N.eqb x sep); [discriminate|].
  destruct (split sep s); discriminate.
Qed.

Lemma count_permutation (p : jsstring -> bool) (l l' : list jsstring) :
  Permutation l l' -> count p l = count p l'.
Proof.
  unfold count.
  induction 1 as [|x l l' _ IH|x y l|l l' l'' _ IH1 _ IH2]; cbn [filter].
  - reflexivity.
  - destruct (p x); cbn [List.length]; congruence.
  - destruct (p x), (p y); reflexivity.
  - congruence.
Qed.

End StringFacts.

(* ------------------------------------------------------------------ *)
(** ** The cascade and the comment bodies *)

Section Cascade.

Lemma contextComment_synthesize (line : jsstring) :
  contextComment line = lit "// " ++ synthesize (classify line).
Proof.
  unfold contextComment, classify, synthesize.
  destruct (isFunctionDeclaration line); [reflexivity|].
  destruct (isVariableDeclaration line); [reflexivity|].
  destruct (isClassDeclaration line); [reflexivity|].
  destruct (isImportExport line); [reflexivity|].
  destruct (isControlFlow line); reflexivity.
Qed.

Lemma linesComment_marker (lines : list jsstring) :
  exists body, linesComment lines = lit "// " ++ body.
Proof.
  unfold linesComment.
  destruct lines as [|l [|l' ls]].
  - destruct (0 <? functionCount []); [|destruct (0 <? variableCount [])];
      eexists; reflexivity.
  - destruct (isFunctionDeclaration (trim l)); eexists; reflexivity.
  - destruct (0 <? functionCount _); [|destruct (0 <? variableCount _)];
      eexists; reflexivity.
Qed.

Lemma category_cascade (line : jsstring) :
  category (classify line) =
  if isFunctionDeclaration line then CFunction
  else if isVariableDeclaration line then CVariable
  else if isClassDeclaration line then CTypeDeclaration
  else if isImportExport line then CImportExport
  else if isControlFlow line then CControlFlow
  else CGeneric.
Proof.
  unfold classify.
  destruct (isFunctionDeclaration line); [reflexivity|].
  destruct (isVariableDeclaration line); [reflexivity|].
  destruct (isClassDeclaration line); [reflexivity|].
  destruct (isImportExport line); [reflexivity|].
  destruct (isControlFlow line); reflexivity.
Qed.

End Cascade.

(* ------------------------------------------------------------------ *)
(** ** Selections *)

(** C1.  On the three-line selection of the test "should handle code
    selection" the aggregator does not count zero function lines: the
    bare-call alternative of the function pattern accepts both
    [if (condition) {] and [doSomething();], so two lines count as functions
    and the comment is [// Code block with 2 functions], not
    [// Code block (3 lines)]. *)
Theorem ifBlock_counts_two_functions :
  split LF ifBlock =
    [lit "if (condition) {"; lit "    doSomething();"; lit "}"] /\
  isFunctionDeclaration (trim (lit "if (condition) {")) = true /\
  isFunctionDeclaration (trim (lit "    doSomething();")) = true /\
  isFunctionDeclaration (trim (lit "}")) = false /\
  functionCount (split LF ifBlock) = 2 /\
  variableCount (split LF ifBlock) = 0 /\
  selectionComment ifBlock = lit "// Code block with 2 functions" /\
  selectionComment ifBlock <> lit "// Code block (3 lines)".
Proof.
  repeat split; try (vm_compute; reflexivity).
  vm_compute. discriminate.
Qed.

(** C3.  In a selection of more than one line with at least one function
    line, the comment is [Code block with <functionCount> function], with an
    [s] appended exactly when the count exceeds 1, whatever the number of
    variable lines. *)
Theorem functions_take_priority (selectedText : jsstring) :
  let lines := split LF selectedText in
  1 < List.length lines ->
  0 < functionCount lines ->
  selectionComment selectedText =
    lit "// " ++ lit "Code block with " ++
    numberToString (functionCount lines) ++ lit " function" ++
    (if Nat.ltb 1 (functionCount lines) then lit "s" else []).
Proof.
  intros lines Hlen Hfc.
  unfold selectionComment. fold lines.
  unfold linesComment.
  destruct lines as [|l [|l' ls]]; cbn [List.length] in Hlen; try lia.
  apply Nat.ltb_lt in Hfc. rewrite Hfc.
  reflexivity.
Qed.

(** The selection with two function declarations and one variable
    declaration: [Code block with 2 functions]. *)
Lemma functions_take_priority_witness :
  variableCount (split LF twoFunctionsOneVariable) = 1 /\
  selectionComment twoFunctionsOneVariable =
    lit "// Code block with 2 functions".
Proof.
  split; [vm_compute; reflexivity|].
  refine (eq_trans (functions_take_priority twoFunctionsOneVariable _ _) _).
  - vm_compute. lia.
  - vm_compute. lia.
  - vm_compute. reflexivity.
Defined.

(** C8.  A selection without a line break is labelled as a function when its
    trimmed text classifies as one ([Function: <name>], or
    [Function definition] when no name is found) and [Selected code block]
    in every other case, whatever the cascade of the no-selection path would
    have made of the line. *)
Theorem single_line_selection (selectedText : jsstring) :
  ~ In LF selectedText ->
  let trimmedLine := trim selectedText in
  let comment := selectionComment selectedText in
  (category (classify trimmedLine) = CFunction ->
   match extractFunctionName trimmedLine with
   | Some (c :: w) => comment = lit "// Function: " ++ c :: w
   | _ => comment = lit "// Function definition"
   end) /\
  (category (classify trimmedLine) <> CFunction ->
   comment = lit "// Selected code block").
Proof.
  intros Hnl trimmedLine comment.
  subst comment. unfold selectionComment.
  rewrite (split_no_separator LF selectedText Hnl).
  cbn [linesComment]. fold trimmedLine.
  rewrite category_cascade.
  destruct (isFunctionDeclaration trimmedLine).
  - split; [intros _|intros H; now elim H].
    unfold labelled.
    destruct (extractFunctionName trimmedLine) as [[|c w]|]; reflexivity.
  - split; [|reflexivity].
    destruct (isVariableDeclaration trimmedLine); [discriminate|].
    destruct (isClassDeclaration trimmedLine); [discriminate|].
    destruct (isImportExport trimmedLine); [discriminate|].
    destruct (isControlFlow trimmedLine); discriminate.
Qed.

Lemma notIn_of_forallb (sep : char) (s : jsstring) :
  forallb (fun c => negb (N.eqb c sep)) s = true -> ~ In sep s.
Proof.
  intros H Hin.
  rewrite forallb_forall in H.
  specialize (H sep Hin).
  now rewrite N.eqb_refl in H.
Defined.

(** A selected variable declaration: the caret path names the variable, the
    selection path does not. *)
Lemma single_line_selection_witness :
  contextComment (trim (lit "let total = 0;")) = lit "// Variable: total" /\
  selectionComment (lit "let total = 0;") = lit "// Selected code block".
Proof.
  split; [vm_compute; reflexivity|].
  apply (single_line_selection (lit "let total = 0;")).
  - apply notIn_of_forallb. vm_compute. reflexivity.
  - vm_compute. discriminate.
Defined.

(** C9.  The tally does not depend on the order of the lines: a permutation
    of the lines of a multi-line selection has the same function count,
    variable count and line count, hence the same comment. *)
Theorem tally_order_independent (lines lines' : list jsstring) :
  1 < List.length lines ->
  Permutation lines lines' ->
  functionCount lines' = functionCount lines /\
  variableCount lines' = variableCount lines /\
  List.length lines' = List.length lines /\
  linesComment lines' = linesComment lines.
Proof.
  intros Hlen HP.
  assert (Hf : functionCount lines' = functionCount lines)
    by (symmetry; now apply count_permutation).
  assert (Hv : variableCount lines' = variableCount lines)
    by (symmetry; now apply count_permutation).
  assert (Hl : List.length lines' = List.length lines)
    by (symmetry; now apply Permutation_length).
  repeat split; trivial.
  unfold linesComment. rewrite Hf, Hv, Hl.
  destruct lines as [|a [|b ls]]; cbn [List.length] in Hlen; try lia.
  destruct lines' as [|a' [|b' ls']]; cbn [List.length] in Hl; try lia.
  reflexivity.
Qed.

Lemma tally_order_independent_witness :
  linesComment (List.rev (split LF twoFunctionsOneVariable)) =
  linesComment (split LF twoFunctionsOneVariable).
Proof.
  apply (tally_order_independent (split LF twoFunctionsOneVariable)).
  - vm_compute. lia.
  - apply Permutation_rev.
Defined.

(* ------------------------------------------------------------------ *)
(** ** Single lines *)

(** The two caret tests of the repository, "should detect function
    declaration" and "should detect variable declaration", on the model. *)
Example caret_tests_of_the_repository :
  editText (generateCommentForCurrentContext
              1 (lit "function calculateSum(a, b) {")) =
    lit "// Function: calculateSum" ++ [LF] /\
  editText (generateCommentForCurrentContext 1 constLine) =
    lit "// Variable: userName" ++ [LF] /\
  contextComment (lit "class Animal {") = lit "// Class: Animal".
Proof.
  repeat split; vm_compute; reflexivity.
Qed.

(** C2.  The line [const userName = "John Doe";] is a variable named
    [userName]: none of the three function patterns accepts it, the
    arrow-assignment alternative included, since no parenthesis follows the
    equals sign; the keyword-led variable pattern accepts it and captures the
    first name. *)
Theorem constLine_is_variable :
  test (Cat Bol reArrowAssignment) constLine = false /\
  test reFunctionJs constLine = false /\
  test reFunctionMethod constLine = false /\
  test reFunctionDef constLine = false /\
  isFunctionDeclaration constLine = false /\
  test reVariableKeyword constLine = true /\
  classify (trim constLine) =
    mkResult CVariable (Some (lit "userName")) None /\
  contextComment (trim constLine) = lit "// Variable: userName".
Proof.
  repeat split; vm_compute; reflexivity.
Qed.

(** C4.  Classification is a total function of the line: the category is one
    of the six, it is [CGeneric] exactly when none of the five tests accepts
    the line, and then the comment is [TODO: Add description]. *)
Theorem classify_total (trimmedText : jsstring) :
  In (category (classify trimmedText))
     [CFunction; CVariable; CTypeDeclaration; CImportExport; CControlFlow;
      CGeneric] /\
  contextComment trimmedText = lit "// " ++ synthesize (classify trimmedText) /\
  (category (classify trimmedText) = CGeneric <->
   isFunctionDeclaration trimmedText = false /\
   isVariableDeclaration trimmedText = false /\
   isClassDeclaration trimmedText = false /\
   isImportExport trimmedText = false /\
   isControlFlow trimmedText = false) /\
  (category (classify trimmedText) = CGeneric ->
   classify trimmedText = mkResult CGeneric None None /\
   contextComment trimmedText = lit "// TODO: Add description").
Proof.
  split; [|split; [apply contextComment_synthesize|]].
  - destruct (category (classify trimmedText)); cbn; tauto.
  - rewrite category_cascade.
    unfold contextComment, classify.
    destruct (isFunctionDeclaration trimmedText);
      [split; [split; [discriminate|intros [? _]; discriminate]
              |discriminate]|].
    destruct (isVariableDeclaration trimmedText);
      [split; [split; [discriminate|intros (_ & ? & _); discriminate]
              |discriminate]|].
    destruct (isClassDeclaration trimmedText);
      [split; [split; [discriminate|intros (_ & _ & ? & _); discriminate]
              |discriminate]|].
    destruct (isImportExport trimmedText);
      [split; [split; [discriminate|intros (_ & _ & _ & ? & _); discriminate]
              |discriminate]|].
    destruct (isControlFlow trimmedText);
      [split; [split; [discriminate|intros (_ & _ & _ & _ & ?); discriminate]
              |discriminate]|].
    repeat split; reflexivity.
Qed.

Lemma classify_total_witness :
  classify (lit "}") = mkResult CGeneric None None /\
  contextComment (lit "}") = lit "// TODO: Add description".
Proof.
  apply (proj2 (proj2 (proj2 (classify_total (lit "}"))))).
  vm_compute. reflexivity.
Defined.

(* ------------------------------------------------------------------ *)
(** ** Placement *)

Section Placement.

Lemma leadingWhiteSpace_trimStart (s : jsstring) :
  s = leadingWhiteSpace s ++ trimStart s.
Proof.
  induction s as [|c s IH]; [reflexivity|].
  cbn [leadingWhiteSpace trimStart].
  destruct (isWhiteSpace c); [|reflexivity].
  cbn [app]. now rewrite <- IH.
Qed.

Lemma leadingWhiteSpace_all (s : jsstring) :
  forallb isWhiteSpace (leadingWhiteSpace s) = true.
Proof.
  induction s as [|c s IH]; [reflexivity|].
  cbn [leadingWhiteSpace].
  destruct (isWhiteSpace c) eqn:E; [|reflexivity].
  cbn [forallb]. now rewrite E.
Qed.

Lemma trimStart_head (s : jsstring) :
  match trimStart s with
  | c :: _ => isWhiteSpace c = false
  | [] => True
  end.
Proof.
  induction s as [|c s IH]; [exact I|].
  cbn [trimStart].
  destruct (isWhiteSpace c) eqn:E; [exact IH|exact E].
Qed.

Lemma trimStart_blank (s : jsstring) :
  isBlank s = true -> trimStart s = [].
Proof.
  unfold isBlank.
  induction s as [|c s IH]; [reflexivity|].
  cbn [forallb trimStart].
  destruct (isWhiteSpace c); [exact IH|discriminate].
Qed.

Lemma indentationOf_leadingWhiteSpace (line : jsstring) :
  indentationOf line = leadingWhiteSpace line.
Proof.
  unfold indentationOf, substring0.
  rewrite (leadingWhiteSpace_trimStart line) at 1 3.
  rewrite length_app, Nat.add_sub.
  rewrite firstn_app, Nat.sub_diag, firstn_all.
  cbn [firstn]. apply app_nil_r.
Qed.

End Placement.

(** C5.  The edit of [insertComment] is an insertion at column 1 of the
    target line of indentation, comment marker, comment body and a line
    feed; the caret goes to the same line number, one past the end of the
    inserted comment.  Both entry points hand over a comment that starts
    with the marker.  On [    const x = 1;] with body [Variable: x] the text
    is [    // Variable: x] plus the line feed and the caret column is
    4 + 14 + 1. *)
Theorem insertion_plan (lineNumber : nat)
        (lineContent body selectedText : jsstring) :
  let indentation := indentationOf lineContent in
  insertComment lineNumber lineContent (lit "// " ++ body) =
    {| editLine := lineNumber;
       editColumn := 1;
       editText := indentation ++ lit "// " ++ body ++ [LF];
       caretLine := lineNumber;
       caretColumn :=
         List.length indentation + List.length (lit "// " ++ body) + 1 |} /\
  generateCommentForCurrentContext lineNumber lineContent =
    insertComment lineNumber lineContent
      (lit "// " ++ synthesize (classify (trim lineContent))) /\
  (exists selectionBody,
     generateCommentForSelection lineNumber lineContent selectedText =
       insertComment lineNumber lineContent (lit "// " ++ selectionBody)) /\
  editText (insertComment lineNumber (lit "    const x = 1;")
                          (lit "// " ++ lit "Variable: x")) =
    lit "    // Variable: x" ++ [LF] /\
  caretColumn (insertComment lineNumber (lit "    const x = 1;")
                             (lit "// " ++ lit "Variable: x")) =
    4 + List.length (lit "// Variable: x") + 1 /\
  generateCommentForCurrentContext lineNumber (lit "    const x = 1;") =
    insertComment lineNumber (lit "    const x = 1;")
                  (lit "// " ++ lit "Variable: x").
Proof.
  intros indentation. subst indentation.
  split; [|split; [|split; [|split; [|split]]]].
  - unfold insertComment. f_equal. lia.
  - unfold generateCommentForCurrentContext.
    now rewrite contextComment_synthesize.
  - unfold generateCommentForSelection, selectionComment.
    destruct (linesComment_marker (split LF selectedText)) as [b Hb].
    exists b. now rewrite Hb.
  - reflexivity.
  - reflexivity.
  - reflexivity.
Qed.

(** C7 as the specification words it fails on a line of white space only:
    such a line is blank, yet its indentation is the whole line, not the
    empty string. *)
Lemma blank_line_indentation_not_empty :
  isBlank (lit "  ") = true /\
  indentationOf (lit "  ") = lit "  " /\
  ~ (forall line, isBlank line = true -> indentationOf line = []).
Proof.
  split; [reflexivity|split; [reflexivity|]].
  intros H. specialize (H (lit "  ") eq_refl). discriminate H.
Qed.

(** C7, amended.  The indentation is the prefix of the line up to, and not
    including, its first character that is not white space; it is the whole
    line when the line has no such character, and it is empty exactly when
    the line is empty or starts with a character that is not white space. *)
Theorem indentation_is_leading_white_space (line : jsstring) :
  let indentation := indentationOf line in
  (exists rest,
     line = indentation ++ rest /\
     forallb isWhiteSpace indentation = true /\
     match rest with
     | c :: _ => isWhiteSpace c = false
     | [] => True
     end) /\
  (isBlank line = true -> indentation = line) /\
  (indentation = [] <->
   match line with
   | c :: _ => isWhiteSpace c = false
   | [] => True
   end).
Proof.
  intros indentation. subst indentation.
  rewrite indentationOf_leadingWhiteSpace.
  split; [|split].
  - exists (trimStart line).
    split; [apply leadingWhiteSpace_trimStart|].
    split; [apply leadingWhiteSpace_all|apply trimStart_head].
  - intros Hb.
    rewrite (leadingWhiteSpace_trimStart line) at 2.
    rewrite (trimStart_blank line Hb). symmetry. apply app_nil_r.
  - destruct line as [|c s]; cbn [leadingWhiteSpace]; [tauto|].
    destruct (isWhiteSpace c); split; try discriminate; reflexivity.
Qed.

Lemma indentation_is_leading_white_space_witness :
  indentationOf (lit "  ") = lit "  ".
Proof.
  apply (proj1 (proj2 (indentation_is_leading_white_space (lit "  ")))).
  reflexivity.
Defined.

(* ------------------------------------------------------------------ *)
(** ** The matcher *)

Section Matcher.

Lemma orElse_some (a : option captures) (b : unit -> option captures)
      (res : captures) :
  orElse a b = Some res -> a = Some res \/ (a = None /\ b tt = Some res).
Proof.
  destruct a; cbn; intros H; [left|right]; auto.
Qed.

(** The result depends on the continuation only through its values. *)
Lemma run_ext (r : regex) :
  forall pos s c (k1 k2 : cont),
    (forall pos' s' c', k1 pos' s' c' = k2 pos' s' c') ->
    run r pos s c k1 = run r pos s c k2.
Proof.
  induction r as [| |p|r1 IH1 r2 IH2|r1 IH1 r2 IH2|r1 IH1|n r1 IH1];
    intros pos s c k1 k2 Hk; cbn [run].
  - apply Hk.
  - destruct (Nat.eqb pos 0); [apply Hk|reflexivity].
  - destruct s as [|x s]; [reflexivity|].
    destruct (p x); [apply Hk|reflexivity].
  - apply IH1. intros. now apply IH2.
  - rewrite (IH1 pos s c k1 k2 Hk), (IH2 pos s c k1 k2 Hk). reflexivity.
  - generalize (List.length s) as fuel. intros fuel.
    revert pos s c.
    induction fuel as [|fuel IHf]; intros pos s c; cbn [starLoop].
    + apply Hk.
    + rewrite (Hk pos s c). f_equal.
      apply IH1. intros pos' s' c'.
      destruct (Nat.ltb _ _); [apply IHf|reflexivity].
  - apply IH1. intros. apply Hk.
Qed.

(** A continuation that always fails makes the match fail. *)
Lemma run_none (r : regex) :
  forall pos s c (k : cont),
    (forall pos' s' c', k pos' s' c' = None) ->
    run r pos s c k = None.
Proof.
  induction r as [| |p|r1 IH1 r2 IH2|r1 IH1 r2 IH2|r1 IH1|n r1 IH1];
    intros pos s c k Hk; cbn [run].
  - apply Hk.
  - destruct (Nat.eqb pos 0); [apply Hk|reflexivity].
  - destruct s as [|x s]; [reflexivity|].
    destruct (p x); [apply Hk|reflexivity].
  - apply IH1. intros. now apply IH2.
  - rewrite (IH1 pos s c k Hk), (IH2 pos s c k Hk). reflexivity.
  - generalize (List.length s) as fuel. intros fuel.
    revert pos s c.
    induction fuel as [|fuel IHf]; intros pos s c; cbn [starLoop].
    + apply Hk.
    + rewrite (Hk pos s c).
      rewrite IH1; [reflexivity|].
      intros pos' s' c'.
      destruct (Nat.ltb _ _); [apply IHf|reflexivity].
  - apply IH1. intros. apply Hk.
Qed.

(** The fuel of the quantifier is never exhausted: any amount from the
    length of the input on gives the same result. *)
Lemma starLoop_fuel (r : regex) (k : cont) :
  forall fuel pos s c,
    List.length s <= fuel ->
    starLoop (run r) k fuel pos s c =
    starLoop (run r) k (List.length s) pos s c.
Proof.
  intros fuel pos s. revert fuel pos.
  induction s as [s IHs] using (induction_ltof1 _ (@List.length char)).
  unfold ltof in IHs.
  intros fuel pos c Hfuel.
  destruct fuel as [|fuel].
  - destruct s; [reflexivity|cbn in Hfuel; lia].
  - destruct (List.length s) as [|n] eqn:Hlen.
    + cbn [starLoop].
      rewrite run_none; [reflexivity|].
      intros pos' s' c'. rewrite Hlen.
      now destruct (List.length s').
    + cbn [starLoop]. f_equal.
      apply run_ext. intros pos' s' c'. rewrite Hlen.
      destruct (Nat.ltb (List.length s') (S n)) eqn:Hlt; [|reflexivity].
      apply Nat.ltb_lt in Hlt.
      rewrite (IHs s' ltac:(lia) fuel pos' c' ltac:(lia)).
      rewrite (IHs s' ltac:(lia) n pos' c' ltac:(lia)).
      reflexivity.
Qed.

(** Around a single character class the quantifier is [greedyClass]. *)
Lemma starLoop_class (p : char -> bool) (k : cont) :
  forall fuel pos s c,
    List.length s <= fuel ->
    starLoop (run (Class p)) k fuel pos s c = greedyClass p k pos s c.
Proof.
  induction fuel as [|fuel IH]; intros pos s c Hfuel.
  - destruct s; [reflexivity|cbn in Hfuel; lia].
  - destruct s as [|x s]; [reflexivity|].
    cbn [starLoop run greedyClass].
    destruct (p x); [|reflexivity].
    cbn [List.length] in *.
    replace (Nat.ltb (List.length s) (S (List.length s))) with true
      by (symmetry; apply Nat.ltb_lt; lia).
    rewrite IH by lia. reflexivity.
Qed.

Lemma run_star_class (p : char -> bool) (k : cont) pos s c :
  run (Star (Class p)) pos s c k = greedyClass p k pos s c.
Proof.
  cbn [run]. now apply starLoop_class.
Qed.

End Matcher.

(* ------------------------------------------------------------------ *)
(** ** Captures *)

Section Captures.

Variable P : jsstring -> Prop.

Lemma capOk_noCaptures : capOk P noCaptures.
Proof. exact I. Qed.

Lemma capOk_setCapture (n : nat) (w : jsstring) (c : captures) :
  capOk P c -> (n = 1 -> P w) -> capOk P (setCapture n w c).
Proof.
  unfold capOk, setCapture. intros Hc Hw.
  destruct (Nat.eqb_spec 1 n) as [<-|_]; auto.
Qed.

(** What a successful run consumed is in the language of the pattern, and
    group 1 stays in [P] on the way to the continuation. *)
Lemma run_sound (r : regex) :
  groupsSat P r ->
  forall pos s c (k : cont) res,
    capOk P c ->
    run r pos s c k = Some res ->
    exists u s' c',
      s = u ++ s' /\ matches r u /\ capOk P c' /\
      k (pos + List.length u) s' c' = Some res.
Proof.
  induction r as [| |p|r1 IH1 r2 IH2|r1 IH1 r2 IH2|r1 IH1|n r1 IH1];
    intros Hg pos s c k res Hc Hrun; cbn [run] in Hrun; cbn [groupsSat] in Hg.
  - exists [], s, c. cbn [List.length app]. rewrite Nat.add_0_r.
    repeat split; auto. constructor.
  - destruct (Nat.eqb pos 0); [|discriminate].
    exists [], s, c. cbn [List.length app]. rewrite Nat.add_0_r.
    repeat split; auto. constructor.
  - destruct s as [|x s]; [discriminate|].
    destruct (p x) eqn:Hp; [|discriminate].
    exists [x], s, c. cbn [List.length app]. rewrite Nat.add_1_r.
    repeat split; auto. now constructor.
  - destruct Hg as [Hg1 Hg2].
    destruct (IH1 Hg1 _ _ _ _ _ Hc Hrun)
      as (u1 & s1 & c1 & -> & Hm1 & Hc1 & Hk1).
    destruct (IH2 Hg2 _ _ _ _ _ Hc1 Hk1)
      as (u2 & s2 & c2 & -> & Hm2 & Hc2 & Hk2).
    exists (u1 ++ u2), s2, c2.
    rewrite length_app, Nat.add_assoc, <- app_assoc.
    repeat split; auto. now constructor.
  - destruct Hg as [Hg1 Hg2].
    destruct (orElse_some _ _ _ Hrun) as [H|[_ H]].
    + destruct (IH1 Hg1 _ _ _ _ _ Hc H) as (u & s' & c' & -> & Hm & Hc' & Hk).
      exists u, s', c'. repeat split; auto. now apply MAltL.
    + destruct (IH2 Hg2 _ _ _ _ _ Hc H) as (u & s' & c' & -> & Hm & Hc' & Hk).
      exists u, s', c'. repeat split; auto. now apply MAltR.
  - revert Hrun. generalize (List.length s) as fuel. intros fuel.
    revert pos s c Hc.
    induction fuel as [|fuel IHf]; intros pos s c Hc Hrun;
      cbn [starLoop] in Hrun.
    + exists [], s, c. cbn [List.length app]. rewrite Nat.add_0_r.
      repeat split; auto. constructor.
    + destruct (orElse_some _ _ _ Hrun) as [H|[_ H]].
      * destruct (IH1 Hg _ _ _ _ _ Hc H)
          as (u1 & s1 & c1 & -> & Hm1 & Hc1 & Hk1).
        destruct (Nat.ltb _ _); [|discriminate].
        destruct (IHf _ _ _ Hc1 Hk1)
          as (u2 & s2 & c2 & -> & Hm2 & Hc2 & Hk2).
        exists (u1 ++ u2), s2, c2.
        rewrite length_app, Nat.add_assoc, <- app_assoc.
        repeat split; auto. now constructor.
      * exists [], s, c. cbn [List.length app]. rewrite Nat.add_0_r.
        repeat split; auto. constructor.
  - destruct Hg as [Hn Hg1].
    destruct (IH1 Hg1 _ _ _ _ _ Hc Hrun) as (u & s' & c' & -> & Hm & Hc' & Hk).
    replace (pos + List.length u - pos) with (List.length u + 0) in Hk by lia.
    rewrite firstn_app_2 in Hk. cbn [firstn] in Hk. rewrite app_nil_r in Hk.
    exists u, s', (setCapture n u c').
    repeat split; auto.
    + now constructor.
    + apply capOk_setCapture; auto.
Qed.

Lemma execFrom_sound (r : regex) :
  groupsSat P r ->
  forall s pos m, execFrom r pos s = Some m -> capOk P m.
Proof.
  intros Hg.
  induction s as [|x s IH]; intros pos m H; cbn [execFrom] in H.
  - destruct (run r pos [] noCaptures accept) eqn:E; [|discriminate].
    injection H as <-.
    destruct (run_sound r Hg _ _ _ _ _ capOk_noCaptures E)
      as (u & s' & c' & _ & _ & Hc' & Hk).
    unfold accept in Hk. now injection Hk as <-.
  - destruct (run r pos (x :: s) noCaptures accept) eqn:E.
    + injection H as <-.
      destruct (run_sound r Hg _ _ _ _ _ capOk_noCaptures E)
        as (u & s' & c' & _ & _ & Hc' & Hk).
      unfold accept in Hk. now injection Hk as <-.
    + now apply (IH (S pos)).
Qed.

(** Group 1 of the result of [match], when set, is in [P]. *)
Lemma exec_group1 (r : regex) (s : jsstring) (m : captures) (w : jsstring) :
  groupsSat P r -> exec r s = Some m -> group1 m = Some w -> P w.
Proof.
  intros Hg He Hw.
  pose proof (execFrom_sound r Hg s 0 m He) as H.
  unfold capOk in H. unfold group1 in Hw. now rewrite Hw in H.
Qed.

End Captures.

Section Identifiers.

Lemma matches_star_word (r : regex) (w : jsstring) :
  matches r w -> r = Star W_ -> forallb isWordChar w = true.
Proof.
  induction 1 as [| | | | | | |r u v Hu _ Hv IHv|]; intros Hr;
    try discriminate; [reflexivity|].
  injection Hr as ->.
  rewrite forallb_app, (IHv eq_refl), andb_true_r.
  inversion Hu; subst. cbn [forallb]. now rewrite andb_true_r.
Qed.

Lemma matches_plus_word (w : jsstring) :
  matches (Plus W_) w -> isIdentifier w.
Proof.
  unfold Plus. intros H.
  inversion H as [| | |r1 r2 u v Hu Hv| | | | |]; subst.
  inversion Hu; subst.
  split; [discriminate|].
  cbn [app forallb]. rewrite (matches_star_word _ _ Hv eq_refl).
  now rewrite andb_true_r.
Qed.

End Identifiers.

Section ExtractedNames.

Ltac groups_ok :=
  cbn;
  repeat match goal with
         | |- _ /\ _ => split
         | |- True => exact I
         | |- _ = 1 -> _ =>
             let w := fresh "w" in
             let Hw := fresh "Hw" in
             intros _ w Hw; apply matches_plus_word; exact Hw
         end.

Lemma reNameFunction_groups : groupsSat isIdentifier reNameFunction.
Proof. groups_ok. Qed.

Lemma reNameConst_groups : groupsSat isIdentifier reNameConst.
Proof. groups_ok. Qed.

Lemma reNameCall_groups : groupsSat isIdentifier reNameCall.
Proof. groups_ok. Qed.

Lemma reNameMethod_groups : groupsSat isIdentifier reNameMethod.
Proof. groups_ok. Qed.

Lemma reNameDef_groups : groupsSat isIdentifier reNameDef.
Proof. groups_ok. Qed.

Lemma reNameKeyword_groups : groupsSat isIdentifier reNameKeyword.
Proof. groups_ok. Qed.

Lemma reNameField_groups : groupsSat isIdentifier reNameField.
Proof. groups_ok. Qed.

Lemma reNameClass_groups : groupsSat isIdentifier reNameClass.
Proof. groups_ok. Qed.

End ExtractedNames.

(** C10.  A name extracted for a function, a variable or a type is a
    non-empty run of word characters (letters, digits, underscore): each
    extraction pattern captures it with a group of one or more word
    characters, and no extraction yields an empty or a multi-word name. *)
Theorem extracted_identifier_is_word (line id : jsstring) :
  (extractFunctionName line = Some id -> isIdentifier id) /\
  (extractVariableName line = Some id -> isIdentifier id) /\
  (extractClassName line = Some id -> isIdentifier id) /\
  (identifier (classify line) = Some id ->
   isIdentifier id /\
   In (category (classify line)) [CFunction; CVariable; CTypeDeclaration]).
Proof.
  assert (HF : extractFunctionName line = Some id -> isIdentifier id).
  { unfold extractFunctionName.
    destruct (exec reNameFunction line) eqn:E1;
      [intros H; exact (exec_group1 isIdentifier _ _ _ _ reNameFunction_groups E1 H)|].
    destruct (exec reNameConst line) eqn:E2;
      [intros H; exact (exec_group1 isIdentifier _ _ _ _ reNameConst_groups E2 H)|].
    destruct (exec reNameCall line) eqn:E3;
      [intros H; exact (exec_group1 isIdentifier _ _ _ _ reNameCall_groups E3 H)|].
    destruct (exec reNameMethod line) eqn:E4;
      [intros H; exact (exec_group1 isIdentifier _ _ _ _ reNameMethod_groups E4 H)|].
    destruct (exec reNameDef line) eqn:E5;
      [intros H; exact (exec_group1 isIdentifier _ _ _ _ reNameDef_groups E5 H)|discriminate]. }
  assert (HV : extractVariableName line = Some id -> isIdentifier id).
  { unfold extractVariableName.
    destruct (exec reNameKeyword line) eqn:E1;
      [intros H; exact (exec_group1 isIdentifier _ _ _ _ reNameKeyword_groups E1 H)|].
    destruct (exec reNameField line) eqn:E2;
      [intros H; exact (exec_group1 isIdentifier _ _ _ _ reNameField_groups E2 H)|discriminate]. }
  assert (HC : extractClassName line = Some id -> isIdentifier id).
  { unfold extractClassName.
    destruct (exec reNameClass line) eqn:E1;
      [intros H; exact (exec_group1 isIdentifier _ _ _ _ reNameClass_groups E1 H)|discriminate]. }
  split; [exact HF|split; [exact HV|split; [exact HC|]]].
  unfold classify.
  destruct (isFunctionDeclaration line);
    [cbn; intros H; split; [now apply HF|auto]|].
  destruct (isVariableDeclaration line);
    [cbn; intros H; split; [now apply HV|auto]|].
  destruct (isClassDeclaration line);
    [cbn; intros H; split; [now apply HC|auto]|].
  destruct (isImportExport line); [discriminate|].
  destruct (isControlFlow line); discriminate.
Qed.

Lemma extracted_identifier_is_word_witness :
  isIdentifier (lit "calculateSum").
Proof.
  apply (proj1 (extracted_identifier_is_word
                  (lit "function calculateSum(a, b) {")
                  (lit "calculateSum"))).
  vm_compute. reflexivity.
Defined.

(* ------------------------------------------------------------------ *)
(** ** Anchored patterns *)

Section Anchored.

Lemma execFrom_anchored (r : regex) :
  forall s pos, execFrom (Cat Bol r) (S pos) s = None.
Proof.
  induction s as [|x s IH]; intros pos; cbn [execFrom run Nat.eqb].
  - reflexivity.
  - apply IH.
Qed.

(** A pattern that starts with [^] is only tried at index 0. *)
Lemma exec_anchored (r : regex) (s : jsstring) :
  exec (Cat Bol r) s = run r 0 s noCaptures accept.
Proof.
  unfold exec.
  destruct s as [|x s]; cbn [execFrom run Nat.eqb].
  - now destruct (run r 0 [] noCaptures accept).
  - destruct (run r 0 (x :: s) noCaptures accept); [reflexivity|].
    apply execFrom_anchored.
Qed.

(** A keyword under the [i] flag is a prefix test up to ASCII case. *)
Lemma run_keyword (w : jsstring) :
  forall pos s c (k : cont),
    run (seqOf (List.map ChrI w)) pos s c k =
    match stripPrefixI w s with
    | Some rest => k (pos + List.length w) rest c
    | None => None
    end.
Proof.
  induction w as [|a w IH]; intros pos s c k.
  - cbn. now rewrite Nat.add_0_r.
  - destruct w as [|b w].
    + cbn. destruct s as [|x s]; [reflexivity|].
      destruct (N.eqb _ _); [|reflexivity].
      now rewrite Nat.add_1_r.
    + change (seqOf (List.map ChrI (a :: b :: w)))
        with (Cat (ChrI a) (seqOf (List.map ChrI (b :: w)))).
      destruct s as [|x s]; [reflexivity|].
      cbn [run ChrI].
      change (stripPrefixI (a :: b :: w) (x :: s))
        with (if N.eqb (foldCase x) (foldCase a)
              then stripPrefixI (b :: w) s else None).
      destruct (N.eqb (foldCase x) (foldCase a)); [|reflexivity].
      rewrite IH.
      destruct (stripPrefixI (b :: w) s); [|reflexivity].
      f_equal. cbn [List.length]. lia.
Qed.

Lemma plainDelimiter_LPAREN : plainDelimiter LPAREN.
Proof.
  split; [reflexivity|].
  intros x. change (foldCase LPAREN) with 40%N. unfold LPAREN, foldCase.
  destruct ((97 <=? x) && (x <=? 122))%N eqn:E; [|reflexivity].
  apply andb_true_iff in E. destruct E as [E1 E2].
  apply N.leb_le in E1. apply N.leb_le in E2.
  transitivity false; [|symmetry]; apply N.eqb_neq; lia.
Qed.

Lemma plainDelimiter_LBRACE : plainDelimiter LBRACE.
Proof.
  split; [reflexivity|].
  intros x. change (foldCase LBRACE) with 123%N. unfold LBRACE, foldCase.
  destruct ((97 <=? x) && (x <=? 122))%N eqn:E; [|reflexivity].
  apply andb_true_iff in E. destruct E as [E1 E2].
  apply N.leb_le in E1. apply N.leb_le in E2.
  transitivity false; [|symmetry]; apply N.eqb_neq; lia.
Qed.

(** Optional white space and then a delimiter: backtracking into the white
    space never helps, the delimiter is looked for after all of it. *)
Lemma greedy_space_delimiter (d : char) :
  plainDelimiter d ->
  forall s pos c,
    greedyClass isWhiteSpace
                (fun pos' s' c' => run (ChrI d) pos' s' c' accept) pos s c =
    match trimStart s with
    | x :: _ => if N.eqb x d then Some c else None
    | [] => None
    end.
Proof.
  intros [Hws Hfold].
  induction s as [|x s IH]; intros pos c; [reflexivity|].
  cbn [greedyClass trimStart].
  destruct (isWhiteSpace x) eqn:Ex.
  - rewrite IH.
    assert (Hx : run (ChrI d) pos (x :: s) c accept = None).
    { cbn [run ChrI]. rewrite Hfold.
      destruct (N.eqb_spec x d) as [->|_]; [congruence|reflexivity]. }
    destruct (trimStart s) as [|y t]; cbn [orElse]; [exact Hx|].
    destruct (N.eqb y d); [reflexivity|exact Hx].
  - cbn [run ChrI]. rewrite Hfold. reflexivity.
Qed.

(** The tests of [getControlFlowType], read as prefix tests. *)
Lemma test_reLeading (kw : string) (d : char) (line : jsstring) :
  plainDelimiter d ->
  test (reLeading kw d) line = leads kw d line.
Proof.
  intros Hd. unfold test, reLeading, leads.
  cbn [seqOf]. rewrite exec_anchored.
  cbn [run]. unfold KwI. rewrite run_keyword.
  destruct (stripPrefixI (lit kw) line) as [rest|]; [|reflexivity].
  rewrite (starLoop_class isWhiteSpace _ _ _ rest noCaptures (le_n _)).
  rewrite (greedy_space_delimiter d Hd).
  destruct (trimStart rest) as [|x t]; [reflexivity|].
  now destruct (N.eqb x d).
Qed.

Lemma getControlFlowType_lookup (line : jsstring) :
  getControlFlowType line = kindByLeadingToken line.
Proof.
  unfold getControlFlowType, kindByLeadingToken.
  rewrite !(test_reLeading _ LPAREN line plainDelimiter_LPAREN).
  rewrite (test_reLeading _ LBRACE line plainDelimiter_LBRACE).
  destruct (leads "if" LPAREN line); [reflexivity|].
  destruct (leads "for" LPAREN line); [reflexivity|].
  destruct (leads "while" LPAREN line); reflexivity.
Qed.

End Anchored.

(** C6 as the specification words it: the kind would follow from the
    leading keyword alone.  The line [if {] is classified as control flow
    and leads with [if], yet its kind is [Control flow], not
    [Conditional], because the test for [if] asks for a parenthesis. *)
Lemma keyword_alone_does_not_decide :
  isControlFlow (lit "if {") = true /\
  getControlFlowType (lit "if {") = lit "Control flow" /\
  category (classify (lit "if {")) = CControlFlow /\
  kindByKeyword (lit "if {") = lit "Conditional" /\
  controlFlowKind (classify (lit "if {")) = Some (lit "Control flow") /\
  contextComment (lit "if {") = lit "// Control flow statement" /\
  ~ (forall line,
       category (classify line) = CControlFlow ->
       controlFlowKind (classify line) = Some (kindByKeyword line)).
Proof.
  repeat split; try (vm_compute; reflexivity).
  intros H. specialize (H (lit "if {")).
  vm_compute in H. specialize (H eq_refl). discriminate H.
Qed.

(** C6, amended.  The kind of a line classified as control flow is found
    by a fixed first-match lookup on the leading keyword together with the
    delimiter that follows it after optional white space: [if (] is
    Conditional, [for (] and [while (] are Loop, [switch (] is Switch,
    [try {] is Error handling, and everything else is Control flow; the
    comment is the kind followed by [ statement]. *)
Theorem control_flow_kind_lookup (trimmedText : jsstring) :
  getControlFlowType trimmedText = kindByLeadingToken trimmedText /\
  (category (classify trimmedText) = CControlFlow ->
   controlFlowKind (classify trimmedText) =
     Some (kindByLeadingToken trimmedText) /\
   contextComment trimmedText =
     lit "// " ++ kindByLeadingToken trimmedText ++ lit " statement").
Proof.
  split; [apply getControlFlowType_lookup|].
  rewrite category_cascade. unfold classify, contextComment.
  destruct (isFunctionDeclaration trimmedText); [discriminate|].
  destruct (isVariableDeclaration trimmedText); [discriminate|].
  destruct (isClassDeclaration trimmedText); [discriminate|].
  destruct (isImportExport trimmedText); [discriminate|].
  destruct (isControlFlow trimmedText); [|discriminate].
  intros _. cbn [controlFlowKind].
  now rewrite getControlFlowType_lookup.
Qed.

Lemma control_flow_kind_lookup_witness :
  controlFlowKind (classify (lit "try {")) = Some (lit "Error handling") /\
  contextComment (lit "try {") = lit "// Error handling statement".
Proof.
  apply (proj2 (control_flow_kind_lookup (lit "try {"))).
  vm_compute. reflexivity.
Defined.

(* ------------------------------------------------------------------ *)
(** ** Keywords in front of a parenthesis *)

Section BareCall.

Lemma orElse_left (a : option captures) (b : unit -> option captures) :
  a <> None -> orElse a b <> None.
Proof. destruct a; cbn; [discriminate|congruence]. Qed.

Lemma orElse_right (a : option captures) (b : unit -> option captures) :
  b tt <> None -> orElse a b <> None.
Proof. destruct a; cbn; [discriminate|trivial]. Qed.

Lemma foldCase_word (x a : char) :
  N.eqb (foldCase x) (foldCase a) = true ->
  isWordChar a = true -> isWordChar x = true.
Proof.
  unfold foldCase, isWordChar. intros H Ha.
  apply N.eqb_eq in H.
  destruct ((97 <=? x) && (x <=? 122))%N eqn:Ex;
    destruct ((97 <=? a) && (a <=? 122))%N eqn:Ea;
    repeat rewrite ?orb_true_iff, ?andb_true_iff, ?andb_false_iff,
      ?N.leb_le, ?N.leb_gt, ?N.eqb_eq in *; lia.
Qed.

Lemma stripPrefixI_word (kw : jsstring) :
  forall line rest,
    stripPrefixI kw line = Some rest ->
    forallb isWordChar kw = true ->
    exists u, line = u ++ rest /\ forallb isWordChar u = true /\
              List.length u = List.length kw.
Proof.
  induction kw as [|a kw IH]; intros line rest H Hw.
  - injection H as ->. now exists [].
  - destruct line as [|x line]; [discriminate|].
    cbn [stripPrefixI] in H. cbn [forallb] in Hw.
    apply andb_true_iff in Hw. destruct Hw as [Ha Hw].
    destruct (N.eqb (foldCase x) (foldCase a)) eqn:E; [|discriminate].
    destruct (IH line rest H Hw) as (u & -> & Hu & Hl).
    exists (x :: u). cbn [app forallb List.length].
    rewrite (foldCase_word x a E Ha), Hu, Hl. auto.
Qed.

(** The greedy quantifier succeeds as soon as the continuation accepts
    after some run of characters of the class. *)
Lemma greedy_succeeds (p : char -> bool) (k : cont) (t : jsstring) :
  (forall pos c, k pos t c <> None) ->
  forall u pos c,
    forallb p u = true -> greedyClass p k pos (u ++ t) c <> None.
Proof.
  intros Hk.
  induction u as [|x u IH]; intros pos c Hu.
  - cbn [app]. destruct t as [|y t']; cbn [greedyClass]; [apply Hk|].
    destruct (p y); [apply orElse_right|]; apply Hk.
  - cbn [forallb] in Hu. apply andb_true_iff in Hu. destruct Hu as [Hx Hu].
    cbn [app greedyClass]. rewrite Hx.
    apply orElse_left. now apply IH.
Qed.

Lemma run_Cat (r1 r2 : regex) pos s c (k : cont) :
  run (Cat r1 r2) pos s c k =
  run r1 pos s c (fun pos' s' c' => run r2 pos' s' c' k).
Proof. reflexivity. Qed.

Lemma run_Class_cons (p : char -> bool) pos x s c (k : cont) :
  run (Class p) pos (x :: s) c k = if p x then k (S pos) s c else None.
Proof. reflexivity. Qed.

(** The bare-call alternative of the function pattern accepts every line
    that starts with a word, optional white space and a parenthesis. *)
Lemma bare_call_accepts (u rest : jsstring) (k : cont) :
  u <> [] -> forallb isWordChar u = true ->
  (exists t, trimStart rest = LPAREN :: t) ->
  (forall pos s c, k pos s c <> None) ->
  forall pos c,
    run (seqOf [Plus W_; Star S_; ChrI LPAREN]) pos (u ++ rest) c k <> None.
Proof.
  intros Hne Hu [t Ht] Hk pos c.
  destruct u as [|x u]; [contradiction|].
  cbn [forallb] in Hu. apply andb_true_iff in Hu. destruct Hu as [Hx Hu].
  change (seqOf [Plus W_; Star S_; ChrI LPAREN])
    with (Cat (Cat W_ (Star W_)) (Cat (Star S_) (ChrI LPAREN))).
  rewrite !run_Cat. unfold W_ at 1. cbn [app].
  rewrite run_Class_cons, Hx.
  unfold W_. rewrite run_star_class.
  apply greedy_succeeds; [|exact Hu].
  intros pos1 c1.
  rewrite run_Cat. unfold S_. rewrite run_star_class.
  rewrite (leadingWhiteSpace_trimStart rest), Ht.
  apply greedy_succeeds; [|apply leadingWhiteSpace_all].
  intros pos2 c2. cbn. apply Hk.
Qed.

(** Whatever keyword leads it, a line accepted by a test of the shape
    [keyword, white space, parenthesis] is a function declaration for
    [isFunctionDeclaration]. *)
Lemma leading_paren_is_function (kw : string) (line : jsstring) :
  lit kw <> [] -> forallb isWordChar (lit kw) = true ->
  leads kw LPAREN line = true ->
  isFunctionDeclaration line = true.
Proof.
  intros Hne Hw Hl.
  unfold leads in Hl.
  destruct (stripPrefixI (lit kw) line) as [rest|] eqn:Es; [|discriminate].
  destruct (stripPrefixI_word _ _ _ Es Hw) as (u & -> & Hu & Hlen).
  assert (Hu0 : u <> []).
  { intros ->. destruct (lit kw); [now apply Hne|discriminate]. }
  assert (Ht : exists t, trimStart rest = LPAREN :: t).
  { destruct (trimStart rest) as [|y t]; [discriminate|].
    apply N.eqb_eq in Hl. subst y. now exists t. }
  unfold isFunctionDeclaration.
  assert (H : test reFunctionJs (u ++ rest) = true); [|now rewrite H].
  unfold test, reFunctionJs. rewrite exec_anchored.
  match goal with
  | |- match ?e with _ => _ end = true =>
      assert (He : e <> None); [|now destruct e]
  end.
  cbn [run anyOf].
  apply orElse_right, orElse_right, orElse_left.
  apply bare_call_accepts; auto.
  intros pos s c. discriminate.
Qed.

(** Hence the kinds that ask for a parenthesis are never reached through the
    cascade: a line classified as control flow is either Error handling or
    Control flow. *)
Lemma control_flow_kinds_reached (line : jsstring) :
  category (classify line) = CControlFlow ->
  getControlFlowType line = lit "Error handling" \/
  getControlFlowType line = lit "Control flow".
Proof.
  rewrite category_cascade, getControlFlowType_lookup.
  unfold kindByLeadingToken.
  destruct (isFunctionDeclaration line) eqn:Ef; [discriminate|]. intros _.
  assert (Hp : forall kw, lit kw <> [] ->
                          forallb isWordChar (lit kw) = true ->
                          leads kw LPAREN line = false).
  { intros kw H1 H2.
    destruct (leads kw LPAREN line) eqn:El; [|reflexivity].
    rewrite (leading_paren_is_function kw line H1 H2 El) in Ef.
    discriminate. }
  rewrite (Hp "if"), (Hp "for"), (Hp "while"), (Hp "switch");
    try reflexivity; try discriminate.
  destruct (leads "try" LBRACE line); auto.
Qed.

End BareCall.

(* ------------------------------------------------------------------ *)
(** ** The matcher against the language of a pattern *)

Section Completeness.

Lemma groupsSat_trivial (r : regex) : groupsSat (fun _ => True) r.
Proof.
  induction r; cbn [groupsSat]; auto.
Qed.

(** What [match] finds is a substring in the language of the pattern. *)
Lemma execFrom_matches (r : regex) :
  forall s pos m,
    execFrom r pos s = Some m ->
    exists pre u post, s = pre ++ u ++ post /\ matches r u.
Proof.
  induction s as [|x s IH]; intros pos m H; cbn [execFrom] in H.
  - destruct (run r pos [] noCaptures accept) eqn:E; [|discriminate].
    destruct (run_sound (fun _ => True) r (groupsSat_trivial r)
                        _ _ _ _ _ (capOk_noCaptures _) E)
      as (u & s' & c' & Hs & Hm & _).
    exists [], u, s'. auto.
  - destruct (run r pos (x :: s) noCaptures accept) eqn:E.
    + destruct (run_sound (fun _ => True) r (groupsSat_trivial r)
                          _ _ _ _ _ (capOk_noCaptures _) E)
      as (u & s' & c' & Hs & Hm & _).
      exists [], u, s'. auto.
    + destruct (IH _ _ H) as (pre & u & post & -> & Hm).
      exists (x :: pre), u, post. auto.
Qed.

Lemma exec_matches (r : regex) (s : jsstring) (m : captures) :
  exec r s = Some m ->
  exists pre u post, s = pre ++ u ++ post /\ matches r u.
Proof. apply execFrom_matches. Qed.

Lemma starLoop_accepts_empty (r : regex) (k : cont) fuel pos s c :
  k pos s c <> None -> starLoop (run r) k fuel pos s c <> None.
Proof.
  intros Hk. destruct fuel; cbn [starLoop]; [exact Hk|].
  apply orElse_right. exact Hk.
Qed.

(** A pattern without [^] finds every word of its language, at any index,
    provided the continuation accepts what follows. *)
Lemma run_complete (r : regex) (u : jsstring) :
  matches r u ->
  bolFree r = true ->
  forall pos s' c (k : cont),
    (forall c', k (pos + List.length u) s' c' <> None) ->
    run r pos (u ++ s') c k <> None.
Proof.
  induction 1 as [| |p x Hp|r1 r2 u v _ IH1 _ IH2|r1 r2 u _ IH|r1 r2 u _ IH
                  |r|r u v Hu IHu Hv IHv|n r u _ IH];
    intros Hb pos s' c k Hk; cbn [bolFree] in Hb.
  - cbn [run app]. specialize (Hk c). now rewrite Nat.add_0_r in Hk.
  - discriminate.
  - cbn [run app]. rewrite Hp. specialize (Hk c).
    now rewrite Nat.add_1_r in Hk.
  - apply andb_true_iff in Hb. destruct Hb as [Hb1 Hb2].
    rewrite <- app_assoc. rewrite run_Cat.
    apply IH1; [exact Hb1|]. intros c1.
    apply IH2; [exact Hb2|]. intros c2.
    specialize (Hk c2). now rewrite length_app, Nat.add_assoc in Hk.
  - apply andb_true_iff in Hb. destruct Hb as [Hb1 _].
    cbn [run]. apply orElse_left. now apply IH.
  - apply andb_true_iff in Hb. destruct Hb as [_ Hb2].
    cbn [run]. apply orElse_right. now apply IH.
  - cbn [run app]. apply starLoop_accepts_empty.
    specialize (Hk c). now rewrite Nat.add_0_r in Hk.
  - destruct u as [|x u].
    + cbn [app]. apply IHv; [exact Hb|]. exact Hk.
    + rewrite <- app_assoc. cbn [run].
      remember ((x :: u) ++ v ++ s') as s eqn:Es.
      assert (Hlen : List.length s = S (List.length (u ++ v ++ s'))).
      { subst s. reflexivity. }
      rewrite Hlen. cbn [starLoop]. apply orElse_left.
      subst s. apply IHu; [exact Hb|]. intros c1.
      cbn [app List.length].
      replace (Nat.ltb (List.length (v ++ s'))
                       (S (List.length (u ++ v ++ s')))) with true
        by (symmetry; apply Nat.ltb_lt; rewrite !length_app; lia).
      rewrite starLoop_fuel by (rewrite !length_app; lia).
      change (run (Star r) (pos + S (List.length u)) (v ++ s') c1 k <> None).
      apply IHv; [exact Hb|]. intros c2.
      replace (pos + S (List.length u) + List.length v)
        with (pos + List.length ((x :: u) ++ v))
        by (cbn [app List.length]; rewrite length_app; lia).
      apply Hk.
  - cbn [run]. apply IH; [exact Hb|]. intros c1. apply Hk.
Qed.

(** The same at index 0 for a pattern whose [^] come first. *)
Lemma run_complete_start (r : regex) (u : jsstring) :
  matches r u ->
  leadBol r = true ->
  forall s' c (k : cont),
    (forall c', k (List.length u) s' c' <> None) ->
    run r 0 (u ++ s') c k <> None.
Proof.
  induction 1 as [| |p x Hp|r1 r2 u v _ IH1 Hv _|r1 r2 u _ IH|r1 r2 u _ IH
                  |r|r u v Hu _ Hv _|n r u _ IH];
    intros Hb s' c k Hk; cbn [leadBol] in Hb.
  - apply Hk.
  - cbn [run app Nat.eqb]. apply Hk.
  - cbn [run app]. rewrite Hp. apply Hk.
  - apply andb_true_iff in Hb. destruct Hb as [Hb1 Hb2].
    rewrite <- app_assoc. rewrite run_Cat.
    apply IH1; [exact Hb1|]. intros c1.
    apply (run_complete r2 v Hv Hb2 (List.length u)). intros c2.
    specialize (Hk c2). now rewrite length_app in Hk.
  - apply andb_true_iff in Hb. destruct Hb as [Hb1 _].
    cbn [run]. apply orElse_left. now apply IH.
  - apply andb_true_iff in Hb. destruct Hb as [_ Hb2].
    cbn [run]. apply orElse_right. now apply IH.
  - cbn [run app]. apply starLoop_accepts_empty. apply Hk.
  - apply (run_complete (Star r) (u ++ v)); [now constructor|exact Hb|].
    exact Hk.
  - cbn [run]. apply IH; [exact Hb|]. intros c1. apply Hk.
Qed.

Lemma execFrom_complete (r : regex) (u post : jsstring) :
  matches r u -> bolFree r = true ->
  forall pre pos, execFrom r pos (pre ++ u ++ post) <> None.
Proof.
  intros Hm Hb.
  induction pre as [|x pre IH]; intros pos.
  - cbn [app].
    assert (H : run r pos (u ++ post) noCaptures accept <> None).
    { apply run_complete; auto. discriminate. }
    destruct (u ++ post); cbn [execFrom];
      destruct (run r pos _ noCaptures accept); congruence.
  - cbn [app execFrom].
    destruct (run r pos _ noCaptures accept); [discriminate|apply IH].
Qed.

(** [match] with a pattern without [^] succeeds as soon as some substring
    is in the language of the pattern. *)
Lemma exec_complete (r : regex) (pre u post : jsstring) :
  matches r u -> bolFree r = true -> exec r (pre ++ u ++ post) <> None.
Proof.
  intros Hm Hb. now apply execFrom_complete.
Qed.

Lemma test_complete_start (r : regex) (u post : jsstring) :
  matches r u -> leadBol r = true -> test r (u ++ post) = true.
Proof.
  intros Hm Hb. unfold test, exec.
  assert (H : run r 0 (u ++ post) noCaptures accept <> None).
  { apply run_complete_start; auto. discriminate. }
  destruct (u ++ post); cbn [execFrom];
    destruct (run r 0 _ noCaptures accept); congruence.
Qed.

End Completeness.

(* ------------------------------------------------------------------ *)
(** ** Words of the languages of the patterns *)

Section Languages.

Lemma matches_Cat_inv (r1 r2 : regex) (u : jsstring) :
  matches (Cat r1 r2) u ->
  exists u1 u2, u = u1 ++ u2 /\ matches r1 u1 /\ matches r2 u2.
Proof.
  intros H. inversion H; subst. eauto.
Qed.

Lemma matches_Group_inv (n : nat) (r : regex) (u : jsstring) :
  matches (Group n r) u -> matches r u.
Proof.
  intros H. now inversion H.
Qed.

Lemma matches_Class_inv (p : char -> bool) (u : jsstring) :
  matches (Class p) u -> exists x, u = [x] /\ p x = true.
Proof.
  intros H. inversion H; subst. eauto.
Qed.

Lemma matches_Bol_inv (u : jsstring) : matches Bol u -> u = [].
Proof.
  intros H. now inversion H.
Qed.

Lemma matches_star_class_inv (p : char -> bool) (r : regex) (u : jsstring) :
  matches r u -> r = Star (Class p) -> forallb p u = true.
Proof.
  induction 1 as [| | | | | | |r u v Hu _ Hv IHv|]; intros Hr;
    try discriminate; [reflexivity|].
  injection Hr as ->.
  rewrite forallb_app, (IHv eq_refl), andb_true_r.
  destruct (matches_Class_inv _ _ Hu) as (x & -> & Hx).
  cbn [forallb]. now rewrite Hx.
Qed.

Lemma matches_star_class (p : char -> bool) (u : jsstring) :
  forallb p u = true -> matches (Star (Class p)) u.
Proof.
  induction u as [|x u IH]; intros H; [constructor|].
  cbn [forallb] in H. apply andb_true_iff in H. destruct H as [Hx Hu].
  change (x :: u) with ([x] ++ u).
  constructor; [now constructor|now apply IH].
Qed.

Lemma matches_plus_class (p : char -> bool) (u : jsstring) :
  u <> [] -> forallb p u = true -> matches (Plus (Class p)) u.
Proof.
  intros Hne H. destruct u as [|x u]; [contradiction|].
  cbn [forallb] in H. apply andb_true_iff in H. destruct H as [Hx Hu].
  change (x :: u) with ([x] ++ u). unfold Plus.
  constructor; [now constructor|now apply matches_star_class].
Qed.

Lemma matches_plus_class_inv (p : char -> bool) (u : jsstring) :
  matches (Plus (Class p)) u -> u <> [] /\ forallb p u = true.
Proof.
  unfold Plus. intros H.
  destruct (matches_Cat_inv _ _ _ H) as (u1 & u2 & -> & H1 & H2).
  destruct (matches_Class_inv _ _ H1) as (x & -> & Hx).
  split; [discriminate|].
  cbn [app forallb]. rewrite Hx.
  now rewrite (matches_star_class_inv p _ _ H2 eq_refl).
Qed.

(** A word of a keyword pattern has the letters of the keyword. *)
Lemma matches_keyword (w : jsstring) :
  forall u,
    matches (seqOf (List.map ChrI w)) u -> stripPrefixI w u = Some [].
Proof.
  induction w as [|a w IH]; intros u H.
  - cbn in H. now inversion H.
  - destruct w as [|b w].
    + cbn in H. destruct (matches_Class_inv _ _ H) as (x & -> & Hx).
      cbn. now rewrite Hx.
    + change (seqOf (List.map ChrI (a :: b :: w)))
        with (Cat (ChrI a) (seqOf (List.map ChrI (b :: w)))) in H.
      destruct (matches_Cat_inv _ _ _ H) as (u1 & u2 & -> & H1 & H2).
      destruct (matches_Class_inv _ _ H1) as (x & -> & Hx).
      cbn [app].
      change (stripPrefixI (a :: b :: w) (x :: u2))
        with (if N.eqb (foldCase x) (foldCase a)
              then stripPrefixI (b :: w) u2 else None).
      rewrite Hx. now apply IH.
Qed.

Lemma matches_keyword_word (kw : string) (u : jsstring) :
  matches (KwI kw) u ->
  lit kw <> [] -> forallb isWordChar (lit kw) = true ->
  u <> [] /\ forallb isWordChar u = true.
Proof.
  intros H Hne Hw.
  apply matches_keyword in H.
  destruct (stripPrefixI_word _ _ _ H Hw) as (v & Hu & Hv & Hlen).
  rewrite app_nil_r in Hu. subst v.
  split; [|exact Hv].
  intros ->. destruct (lit kw); [now apply Hne|discriminate].
Qed.

Lemma matches_anyOf (rs : list regex) (r : regex) (u : jsstring) :
  In r rs -> matches r u -> matches (anyOf rs) u.
Proof.
  induction rs as [|r0 rs IH]; intros Hin Hm; [contradiction|].
  destruct rs as [|r1 rs].
  - destruct Hin as [->|[]]. exact Hm.
  - change (anyOf (r0 :: r1 :: rs)) with (Alt r0 (anyOf (r1 :: rs))).
    destruct Hin as [->|Hin]; [now apply MAltL|].
    apply MAltR. now apply IH.
Qed.

Lemma matches_opt_empty (r : regex) : matches (Opt r) [].
Proof. unfold Opt. apply MAltR. constructor. Qed.

Lemma matches_Chr_LPAREN (u : jsstring) :
  matches (ChrI LPAREN) u -> matches (Chr LPAREN) u.
Proof.
  intros H. destruct (matches_Class_inv _ _ H) as (x & -> & Hx).
  constructor.
  now rewrite (proj2 plainDelimiter_LPAREN) in Hx.
Qed.

End Languages.

Section GroupOne.

(** Captures are only ever added, and a pattern of which every way passes
    group 1 leaves it set. *)
Lemma run_group1_set (r : regex) :
  forall pos s c (k : cont) res,
    run r pos s c k = Some res ->
    exists pos' s' c',
      k pos' s' c' = Some res /\
      (setsGroup1 r = true \/ c 1 <> None -> c' 1 <> None).
Proof.
  induction r as [| |p|r1 IH1 r2 IH2|r1 IH1 r2 IH2|r1 IH1|n r1 IH1];
    intros pos s c k res Hrun; cbn [run] in Hrun; cbn [setsGroup1].
  - exists pos, s, c. split; [exact Hrun|]. intros [H|H]; [discriminate|auto].
  - destruct (Nat.eqb pos 0); [|discriminate].
    exists pos, s, c. split; [exact Hrun|]. intros [H|H]; [discriminate|auto].
  - destruct s as [|x s]; [discriminate|].
    destruct (p x); [|discriminate].
    exists (S pos), s, c. split; [exact Hrun|].
    intros [H|H]; [discriminate|auto].
  - destruct (IH1 _ _ _ _ _ Hrun) as (p1 & s1 & c1 & Hk1 & Hc1).
    destruct (IH2 _ _ _ _ _ Hk1) as (p2 & s2 & c2 & Hk2 & Hc2).
    exists p2, s2, c2. split; [exact Hk2|].
    intros [H|H].
    + apply orb_true_iff in H. destruct H as [H|H]; auto.
    + auto.
  - destruct (orElse_some _ _ _ Hrun) as [H|[_ H]].
    + destruct (IH1 _ _ _ _ _ H) as (p1 & s1 & c1 & Hk1 & Hc1).
      exists p1, s1, c1. split; [exact Hk1|].
      intros [H0|H0]; [apply andb_true_iff in H0; destruct H0|]; auto.
    + destruct (IH2 _ _ _ _ _ H) as (p1 & s1 & c1 & Hk1 & Hc1).
      exists p1, s1, c1. split; [exact Hk1|].
      intros [H0|H0]; [apply andb_true_iff in H0; destruct H0|]; auto.
  - revert Hrun. generalize (List.length s) as fuel. intros fuel.
    revert pos s c.
    induction fuel as [|fuel IHf]; intros pos s c Hrun;
      cbn [starLoop] in Hrun.
    + exists pos, s, c. split; [exact Hrun|].
      intros [H|H]; [discriminate|auto].
    + destruct (orElse_some _ _ _ Hrun) as [H|[_ H]].
      * destruct (IH1 _ _ _ _ _ H) as (p1 & s1 & c1 & Hk1 & Hc1).
        destruct (Nat.ltb _ _); [|discriminate].
        destruct (IHf _ _ _ Hk1) as (p2 & s2 & c2 & Hk2 & Hc2).
        exists p2, s2, c2. split; [exact Hk2|].
        intros [H0|H0]; [discriminate|auto].
      * exists pos, s, c. split; [exact H|].
        intros [H0|H0]; [discriminate|auto].
  - destruct (IH1 _ _ _ _ _ Hrun) as (p1 & s1 & c1 & Hk1 & Hc1).
    eexists _, _, _. split; [exact Hk1|].
    unfold setCapture. intros H.
    destruct (Nat.eqb_spec 1 n) as [<-|Hn]; [discriminate|].
    apply Hc1. destruct H as [H|H]; [|auto].
    apply orb_true_iff in H. destruct H as [H|H]; [|auto].
    apply Nat.eqb_eq in H. congruence.
Qed.

Lemma exec_sets_group1 (r : regex) (s : jsstring) (m : captures) :
  setsGroup1 r = true -> exec r s = Some m ->
  exists w, group1 m = Some w.
Proof.
  intros Hg. unfold exec. generalize 0 as pos. revert s.
  assert (Hrun : forall pos s,
             run r pos s noCaptures accept = Some m ->
             exists w, group1 m = Some w).
  { intros pos s H.
    destruct (run_group1_set r _ _ _ _ _ H) as (p1 & s1 & c1 & Hk & Hc).
    unfold accept in Hk. injection Hk as <-.
    unfold group1. destruct (c1 1) as [w|] eqn:E; [eauto|].
    exfalso. apply Hc; auto. }
  induction s as [|x s IH]; intros pos H; cbn [execFrom] in H.
  - destruct (run r pos [] noCaptures accept) eqn:E; [|discriminate].
    injection H as ->. eapply Hrun; eauto.
  - destruct (run r pos (x :: s) noCaptures accept) eqn:E.
    + injection H as ->. eapply Hrun; eauto.
    + eapply IH; eauto.
Qed.

(** A successful [match] with a pattern that always passes group 1, in
    which group 1 only holds words of [P], yields such a word. *)
Lemma exec_found (P : jsstring -> Prop) (r : regex) (s : jsstring) :
  groupsSat P r -> setsGroup1 r = true -> exec r s <> None ->
  exists m w, exec r s = Some m /\ group1 m = Some w /\ P w.
Proof.
  intros Hg Hs He.
  destruct (exec r s) as [m|] eqn:E; [|congruence].
  destruct (exec_sets_group1 r s m Hs E) as [w Hw].
  exists m, w. repeat split; auto.
  exact (exec_group1 P r s m w Hg E Hw).
Qed.

End GroupOne.

(* ------------------------------------------------------------------ *)
(** ** Names are found whenever a declaration is recognised *)

Section NamesFound.

Lemma forallb_weaken (p q : char -> bool) (u : jsstring) :
  (forall x, p x = true -> q x = true) ->
  forallb p u = true -> forallb q u = true.
Proof.
  intros Hpq. induction u as [|x u IH]; [reflexivity|].
  cbn [forallb]. intros H. apply andb_true_iff in H. destruct H as [Hx Hu].
  now rewrite (Hpq x Hx), IH.
Qed.

Lemma extractFunctionName_identifier (line id : jsstring) :
  extractFunctionName line = Some id -> isIdentifier id.
Proof.
  unfold extractFunctionName.
  destruct (exec reNameFunction line) eqn:E1;
    [intros H; exact (exec_group1 _ _ _ _ _ reNameFunction_groups E1 H)|].
  destruct (exec reNameConst line) eqn:E2;
    [intros H; exact (exec_group1 _ _ _ _ _ reNameConst_groups E2 H)|].
  destruct (exec reNameCall line) eqn:E3;
    [intros H; exact (exec_group1 _ _ _ _ _ reNameCall_groups E3 H)|].
  destruct (exec reNameMethod line) eqn:E4;
    [intros H; exact (exec_group1 _ _ _ _ _ reNameMethod_groups E4 H)|].
  destruct (exec reNameDef line) eqn:E5;
    [intros H; exact (exec_group1 _ _ _ _ _ reNameDef_groups E5 H)|].
  discriminate.
Qed.

Lemma variable_name_found (line : jsstring) :
  isVariableDeclaration line = true ->
  exists id, extractVariableName line = Some id /\ isIdentifier id.
Proof.
  unfold isVariableDeclaration. intros H.
  assert (Hfield : exec reNameField line <> None ->
                   exists id, extractVariableName line = Some id /\
                              isIdentifier id).
  { intros Hf. unfold extractVariableName.
    destruct (exec reNameKeyword line) as [m|] eqn:E.
    - destruct (exec_found isIdentifier reNameKeyword line
                  reNameKeyword_groups eq_refl)
        as (m' & w & Em & Hg1 & Hid); [congruence|].
      exists w. split; [congruence|exact Hid].
    - destruct (exec_found isIdentifier reNameField line
                  reNameField_groups eq_refl Hf)
        as (m' & w & Em & Hg1 & Hid).
      rewrite Em. eauto. }
  apply orb_true_iff in H. destruct H as [H|H]; unfold test in H.
  - destruct (exec reVariableKeyword line) as [m|] eqn:E; [|discriminate].
    destruct (exec_matches _ _ _ E) as (pre & u & post & -> & Hm).
    unfold reVariableKeyword in Hm. cbn [seqOf] in Hm.
    destruct (matches_Cat_inv _ _ _ Hm) as (ub & t1 & -> & Hbol & H1).
    destruct (matches_Cat_inv _ _ _ H1) as (uk & t2 & -> & Hkw & H2).
    destruct (matches_Cat_inv _ _ _ H2) as (us & uw & -> & Hsp & Hw).
    apply matches_Bol_inv in Hbol. subst ub.
    apply matches_Group_inv in Hkw. cbn [app].
    assert (Hk : exec reNameKeyword (pre ++ (uk ++ us ++ uw) ++ post)
                 <> None).
    { apply exec_complete; [|reflexivity].
      unfold reNameKeyword. cbn [seqOf].
      repeat (constructor; try assumption). }
    destruct (exec_found isIdentifier reNameKeyword _
                reNameKeyword_groups eq_refl Hk)
      as (m' & w & Em & Hg1 & Hid).
    exists w. unfold extractVariableName. rewrite Em. auto.
  - destruct (exec reVariableField line) as [m|] eqn:E; [|discriminate].
    destruct (exec_matches _ _ _ E) as (pre & u & post & -> & Hm).
    unfold reVariableField in Hm. cbn [seqOf] in Hm.
    destruct (matches_Cat_inv _ _ _ Hm) as (um & t1 & -> & Hmod & H1).
    destruct (matches_Cat_inv _ _ _ H1) as (ut & t2 & -> & Hty & H2).
    destruct (matches_Cat_inv _ _ _ H2) as (us & t3 & -> & Hsp & H3).
    destruct (matches_Cat_inv _ _ _ H3) as (uw & t4 & -> & Hw & H4).
    destruct (matches_Cat_inv _ _ _ H4) as (us' & ue & -> & Hsp' & He).
    apply Hfield.
    replace (pre ++ (um ++ ut ++ us ++ uw ++ us' ++ ue) ++ post)
      with ((pre ++ um) ++ (ut ++ us ++ uw ++ us' ++ ue) ++ post)
      by (now rewrite <- !app_assoc).
    apply exec_complete; [|reflexivity].
    unfold reNameField. cbn [seqOf].
    repeat (constructor; try assumption).
Qed.

Lemma class_name_found (line : jsstring) :
  isClassDeclaration line = true ->
  exists id, extractClassName line = Some id /\ isIdentifier id.
Proof.
  unfold isClassDeclaration. intros H.
  assert (Hname : exec reNameClass line <> None ->
                  exists id, extractClassName line = Some id /\
                             isIdentifier id).
  { intros Hf. unfold extractClassName.
    destruct (exec_found isIdentifier reNameClass line
                reNameClass_groups eq_refl Hf)
      as (m' & w & Em & Hg1 & Hid).
    rewrite Em. eauto. }
  apply Hname.
  apply orb_true_iff in H. destruct H as [H|H]; unfold test in H.
  - destruct (exec reClassKeyword line) as [m|] eqn:E; [|discriminate].
    destruct (exec_matches _ _ _ E) as (pre & u & post & -> & Hm).
    unfold reClassKeyword in Hm. cbn [seqOf] in Hm.
    destruct (matches_Cat_inv _ _ _ Hm) as (ub & t1 & -> & Hbol & H1).
    destruct (matches_Cat_inv _ _ _ H1) as (uk & t2 & -> & Hkw & H2).
    destruct (matches_Cat_inv _ _ _ H2) as (us & uw & -> & Hsp & Hw).
    apply matches_Bol_inv in Hbol. subst ub.
    apply matches_Group_inv in Hkw. cbn [app].
    apply exec_complete; [|reflexivity].
    unfold reNameClass. cbn [seqOf].
    repeat (constructor; try assumption).
  - destruct (exec reClassModified line) as [m|] eqn:E; [|discriminate].
    destruct (exec_matches _ _ _ E) as (pre & u & post & -> & Hm).
    unfold reClassModified in Hm. cbn [seqOf] in Hm.
    destruct (matches_Cat_inv _ _ _ Hm) as (um & t1 & -> & Hmod & H1).
    destruct (matches_Cat_inv _ _ _ H1) as (uk & t2 & -> & Hkw & H2).
    destruct (matches_Cat_inv _ _ _ H2) as (us & uw & -> & Hsp & Hw).
    replace (pre ++ (um ++ uk ++ us ++ uw) ++ post)
      with ((pre ++ um) ++ (uk ++ us ++ uw) ++ post)
      by (now rewrite <- !app_assoc).
    apply exec_complete; [|reflexivity].
    unfold reNameClass. cbn [seqOf].
    constructor; [|repeat (constructor; try assumption)].
    apply (matches_anyOf _ (KwI "class")); [|assumption].
    cbn. auto.
Qed.

End NamesFound.

(** X1.  A line the caret path takes for a variable always gets a name: the
    comment is [Variable: <name>] with a non-empty run of word characters,
    never [Variable declaration]. *)
Theorem variable_comment_names_the_variable (trimmedLine : jsstring) :
  category (classify trimmedLine) = CVariable ->
  exists id,
    isIdentifier id /\
    extractVariableName trimmedLine = Some id /\
    contextComment trimmedLine = lit "// Variable: " ++ id /\
    contextComment trimmedLine <> lit "// Variable declaration".
Proof.
  rewrite category_cascade. unfold contextComment.
  destruct (isFunctionDeclaration trimmedLine); [discriminate|].
  destruct (isVariableDeclaration trimmedLine) eqn:Ev.
  - intros _.
    destruct (variable_name_found trimmedLine Ev) as (id & Hid & Hw).
    exists id. rewrite Hid.
    destruct Hw as [Hne Hw]. destruct id as [|c w]; [contradiction|].
    repeat split; auto; discriminate.
  - destruct (isClassDeclaration trimmedLine); [discriminate|].
    destruct (isImportExport trimmedLine); [discriminate|].
    destruct (isControlFlow trimmedLine); discriminate.
Qed.

Lemma variable_comment_names_the_variable_witness :
  exists id,
    isIdentifier id /\
    extractVariableName (lit "String label;") = Some id /\
    contextComment (lit "String label;") = lit "// Variable: " ++ id /\
    contextComment (lit "String label;") <> lit "// Variable declaration".
Proof.
  apply (variable_comment_names_the_variable (lit "String label;")).
  vm_compute. reflexivity.
Defined.

(** X2.  A line the caret path takes for a type always gets a name: the
    comment is [Class: <name>], never [Class definition]. *)
Theorem class_comment_names_the_class (trimmedLine : jsstring) :
  category (classify trimmedLine) = CTypeDeclaration ->
  exists id,
    isIdentifier id /\
    extractClassName trimmedLine = Some id /\
    contextComment trimmedLine = lit "// Class: " ++ id /\
    contextComment trimmedLine <> lit "// Class definition".
Proof.
  rewrite category_cascade. unfold contextComment.
  destruct (isFunctionDeclaration trimmedLine); [discriminate|].
  destruct (isVariableDeclaration trimmedLine); [discriminate|].
  destruct (isClassDeclaration trimmedLine) eqn:Ec.
  - intros _.
    destruct (class_name_found trimmedLine Ec) as (id & Hid & Hw).
    exists id. rewrite Hid.
    destruct Hw as [Hne Hw]. destruct id as [|c w]; [contradiction|].
    repeat split; auto; discriminate.
  - destruct (isImportExport trimmedLine); [discriminate|].
    destruct (isControlFlow trimmedLine); discriminate.
Qed.

Lemma class_comment_names_the_class_witness :
  exists id,
    isIdentifier id /\
    extractClassName (lit "public abstract class Shape {") = Some id /\
    contextComment (lit "public abstract class Shape {") =
      lit "// Class: " ++ id /\
    contextComment (lit "public abstract class Shape {") <>
      lit "// Class definition".
Proof.
  apply (class_comment_names_the_class
           (lit "public abstract class Shape {")).
  vm_compute. reflexivity.
Defined.

(* ------------------------------------------------------------------ *)
(** ** Patterns that never decide *)

Section Subsumed.

Lemma call_pattern_first (line : jsstring) :
  exec reNameCall line = None ->
  exec reNameMethod line = None /\ exec reNameDef line = None.
Proof.
  intros Hcall. split.
  - destruct (exec reNameMethod line) as [m|] eqn:E; [|reflexivity].
    exfalso. revert Hcall.
    destruct (exec_matches _ _ _ E) as (pre & u & post & -> & Hm).
    unfold reNameMethod in Hm. cbn [seqOf] in Hm.
    destruct (matches_Cat_inv _ _ _ Hm) as (ut & t1 & -> & Hty & H1).
    destruct (matches_Cat_inv _ _ _ H1) as (us & t2 & -> & Hsp & H2).
    replace (pre ++ (ut ++ us ++ t2) ++ post)
      with ((pre ++ ut ++ us) ++ t2 ++ post)
      by (now rewrite <- !app_assoc).
    apply exec_complete; [exact H2|reflexivity].
  - destruct (exec reNameDef line) as [m|] eqn:E; [|reflexivity].
    exfalso. revert Hcall.
    destruct (exec_matches _ _ _ E) as (pre & u & post & -> & Hm).
    unfold reNameDef in Hm. cbn [seqOf] in Hm.
    destruct (matches_Cat_inv _ _ _ Hm) as (ud & t1 & -> & Hdef & H1).
    destruct (matches_Cat_inv _ _ _ H1) as (us & t2 & -> & Hsp & H2).
    destruct (matches_Cat_inv _ _ _ H2) as (uw & t3 & -> & Hw & H3).
    destruct (matches_Cat_inv _ _ _ H3) as (us' & up & -> & Hsp' & Hp).
    replace (pre ++ (ud ++ us ++ uw ++ us' ++ up) ++ post)
      with ((pre ++ ud ++ us) ++ (uw ++ us' ++ up) ++ post)
      by (now rewrite <- !app_assoc).
    apply exec_complete; [|reflexivity].
    unfold reNameCall. cbn [seqOf].
    repeat (constructor; try assumption).
    now apply matches_Chr_LPAREN.
Qed.

Lemma def_test_subsumed (line : jsstring) :
  test reFunctionDef line = true -> test reFunctionMethod line = true.
Proof.
  unfold test at 1, reFunctionDef. cbn [seqOf]. rewrite exec_anchored.
  destruct (run _ 0 line noCaptures accept) as [m|] eqn:E; [|discriminate].
  intros _.
  destruct (run_sound (fun _ => True) _ (groupsSat_trivial _)
                      _ _ _ _ _ (capOk_noCaptures _) E)
    as (u & post & c' & -> & Hm & _).
  destruct (matches_Cat_inv _ _ _ Hm) as (ud & t1 & -> & Hdef & H1).
  destruct (matches_keyword_word "def" ud Hdef) as [Hne Hword];
    [discriminate|reflexivity|].
  apply test_complete_start; [|reflexivity].
  unfold reFunctionMethod. cbn [seqOf].
  change (ud ++ t1) with ([] ++ ud ++ t1).
  constructor; [|constructor; [|exact H1]].
  - unfold reModifiers. cbn [seqOf].
    apply (MCat _ _ [] []); [constructor|].
    apply (MCat _ _ [] []); [apply matches_opt_empty|].
    apply (MCat _ _ [] []); [constructor|apply matches_opt_empty].
  - unfold WAngle. apply matches_plus_class; [exact Hne|].
    apply (forallb_weaken isWordChar); [|exact Hword].
    intros x Hx. now rewrite Hx.
Qed.

End Subsumed.

(** X3.  The fourth and fifth patterns of [extractFunctionName], for
    Java/C# methods and Python functions, never decide the name: wherever
    one of them matches, the third pattern matches too and is tried first.
    The result is that of the first three patterns alone. *)
Theorem method_and_def_patterns_never_consulted (line : jsstring) :
  extractFunctionName line = extractFunctionNameJs line /\
  (exec reNameMethod line <> None -> exec reNameCall line <> None) /\
  (exec reNameDef line <> None -> exec reNameCall line <> None).
Proof.
  split; [|split].
  - unfold extractFunctionName, extractFunctionNameJs.
    destruct (exec reNameFunction line); [reflexivity|].
    destruct (exec reNameConst line); [reflexivity|].
    destruct (exec reNameCall line) eqn:E; [reflexivity|].
    destruct (call_pattern_first line E) as [-> ->]. reflexivity.
  - intros H Hc. now destruct (call_pattern_first line Hc) as [? _].
  - intros H Hc. now destruct (call_pattern_first line Hc) as [_ ?].
Qed.

Lemma method_and_def_patterns_never_consulted_witness :
  exec reNameCall (lit "def area(self):") <> None.
Proof.
  apply (proj2 (proj2 (method_and_def_patterns_never_consulted
                         (lit "def area(self):")))).
  vm_compute. discriminate.
Defined.

(** X4.  The Python test of [isFunctionDeclaration] is redundant: a line it
    accepts is already accepted by the method test before it, which reads
    [def] as a return type.  The result is that of the first two tests. *)
Theorem python_test_is_redundant (line : jsstring) :
  (test reFunctionDef line = true -> test reFunctionMethod line = true) /\
  isFunctionDeclaration line =
    test reFunctionJs line || test reFunctionMethod line.
Proof.
  split; [apply def_test_subsumed|].
  unfold isFunctionDeclaration.
  destruct (test reFunctionJs line); [reflexivity|].
  destruct (test reFunctionMethod line) eqn:Em; [reflexivity|].
  destruct (test reFunctionDef line) eqn:Ed; [|reflexivity].
  rewrite (def_test_subsumed line Ed) in Em. discriminate.
Qed.

Lemma python_test_is_redundant_witness :
  test reFunctionMethod (lit "def area(self):") = true.
Proof.
  apply (proj1 (python_test_is_redundant (lit "def area(self):"))).
  vm_compute. reflexivity.
Defined.

Lemma contextComment_forms (trimmedLine : jsstring) :
  (exists id, contextComment trimmedLine = lit "// Function: " ++ id) \/
  (exists id, contextComment trimmedLine = lit "// Variable: " ++ id) \/
  (exists id, contextComment trimmedLine = lit "// Class: " ++ id) \/
  In (contextComment trimmedLine)
     [lit "// Function definition"; lit "// Variable declaration";
      lit "// Class definition"; lit "// Module import/export";
      lit "// Error handling statement"; lit "// Control flow statement";
      lit "// TODO: Add description"].
Proof.
  pose proof (control_flow_kinds_reached trimmedLine) as Hk.
  rewrite category_cascade in Hk. unfold contextComment, labelled.
  destruct (isFunctionDeclaration trimmedLine).
  { destruct (extractFunctionName trimmedLine) as [[|c w]|];
      [|left; eexists; reflexivity|]; do 3 right; cbn; auto. }
  destruct (isVariableDeclaration trimmedLine).
  { destruct (extractVariableName trimmedLine) as [[|c w]|];
      [|right; left; eexists; reflexivity|]; do 3 right; cbn; auto. }
  destruct (isClassDeclaration trimmedLine).
  { destruct (extractClassName trimmedLine) as [[|c w]|];
      [|right; right; left; eexists; reflexivity|]; do 3 right; cbn; auto. }
  do 3 right.
  destruct (isImportExport trimmedLine); [cbn; auto|].
  destruct (isControlFlow trimmedLine); [|cbn; auto 10].
  destruct (Hk eq_refl) as [-> | ->]; cbn; auto 10.
Qed.

(** X5.  The caret path never writes [Conditional statement],
    [Loop statement] or [Switch statement]: the tests of
    [getControlFlowType] for these kinds ask for a parenthesis after the
    keyword, and such a line is taken for a function first. *)
Theorem paren_kinds_never_written (trimmedLine : jsstring) :
  contextComment trimmedLine <> lit "// Conditional statement" /\
  contextComment trimmedLine <> lit "// Loop statement" /\
  contextComment trimmedLine <> lit "// Switch statement".
Proof.
  repeat split; intros E;
    destruct (contextComment_forms trimmedLine)
      as [[id H]|[[id H]|[[id H]|H]]];
    rewrite E in H;
    try (vm_compute in H; discriminate H);
    cbn [In] in H;
    repeat (destruct H as [H|H]; [vm_compute in H; discriminate H|]);
    exact H.
Qed.

(** X6.  A line that starts with a name, optional white space and an
    opening parenthesis, such as a call statement, is taken for a function
    declaration, whatever follows. *)
Theorem call_statement_is_function (name rest : jsstring) :
  isIdentifier name ->
  (exists t, trimStart rest = LPAREN :: t) ->
  isFunctionDeclaration (name ++ rest) = true /\
  category (classify (name ++ rest)) = CFunction.
Proof.
  intros [Hne Hw] Ht.
  assert (H : isFunctionDeclaration (name ++ rest) = true).
  { unfold isFunctionDeclaration.
    assert (H : test reFunctionJs (name ++ rest) = true); [|now rewrite H].
    unfold test, reFunctionJs. rewrite exec_anchored.
    match goal with
    | |- match ?e with _ => _ end = true =>
        assert (He : e <> None); [|now destruct e]
    end.
    cbn [run anyOf].
    apply orElse_right, orElse_right, orElse_left.
    apply bare_call_accepts; auto.
    intros pos s c. discriminate. }
  split; [exact H|].
  rewrite category_cascade. now rewrite H.
Qed.

Lemma call_statement_is_function_witness :
  isFunctionDeclaration (lit "doSomething" ++ lit " ();") = true /\
  category (classify (lit "doSomething" ++ lit " ();")) = CFunction.
Proof.
  apply (call_statement_is_function (lit "doSomething") (lit " ();")).
  - split; [discriminate|reflexivity].
  - exists (lit ");"). reflexivity.
Defined.

(* ------------------------------------------------------------------ *)
(** ** Letter case *)

Section LetterCase.

Lemma foldCase_idem (x : char) : foldCase (foldCase x) = foldCase x.
Proof.
  unfold foldCase.
  destruct ((97 <=? x) && (x <=? 122))%N eqn:E.
  - apply andb_true_iff in E. destruct E as [E1 E2].
    apply N.leb_le in E1. apply N.leb_le in E2.
    replace ((97 <=? x - 32) && (x - 32 <=? 122))%N with false;
      [reflexivity|].
    symmetry. apply andb_false_iff. left. apply N.leb_gt. lia.
  - now rewrite E.
Qed.

Lemma isWordChar_foldCase (x : char) :
  isWordChar (foldCase x) = isWordChar x.
Proof.
  destruct (isWordChar x) eqn:E.
  - apply (foldCase_word (foldCase x) x); [|exact E].
    rewrite foldCase_idem. apply N.eqb_refl.
  - destruct (isWordChar (foldCase x)) eqn:E'; [|reflexivity].
    rewrite <- E. symmetry.
    apply (foldCase_word x (foldCase x)); [|exact E'].
    rewrite foldCase_idem. apply N.eqb_refl.
Qed.

Lemma foldCase_plain (d x : char) :
  (d < 65 \/ (90 < d /\ d < 97) \/ 122 < d)%N ->
  N.eqb (foldCase x) d = N.eqb x d.
Proof.
  intros Hd. unfold foldCase.
  destruct ((97 <=? x) && (x <=? 122))%N eqn:E; [|reflexivity].
  apply andb_true_iff in E. destruct E as [E1 E2].
  apply N.leb_le in E1. apply N.leb_le in E2.
  transitivity false; [|symmetry]; apply N.eqb_neq; lia.
Qed.

Lemma isWhiteSpace_foldCase (x : char) :
  isWhiteSpace (foldCase x) = isWhiteSpace x.
Proof.
  unfold foldCase.
  destruct ((97 <=? x) && (x <=? 122))%N eqn:E; [|reflexivity].
  apply andb_true_iff in E. destruct E as [E1 E2].
  apply N.leb_le in E1. apply N.leb_le in E2.
  transitivity false; [|symmetry];
    apply not_true_is_false; unfold isWhiteSpace; intros H;
    repeat rewrite ?orb_true_iff, ?andb_true_iff, ?N.leb_le, ?N.eqb_eq in H;
    lia.
Qed.

Lemma caseBlind_ChrI (a : char) : caseBlind (ChrI a).
Proof. intros x. cbn beta. now rewrite foldCase_idem. Qed.

Lemma caseBlind_S : caseBlind S_.
Proof. exact isWhiteSpace_foldCase. Qed.

Lemma caseBlind_W : caseBlind W_.
Proof. exact isWordChar_foldCase. Qed.

Lemma caseBlind_WAngle : caseBlind WAngle.
Proof.
  intros x. cbn beta.
  rewrite isWordChar_foldCase, !foldCase_plain by lia. reflexivity.
Qed.

Lemma caseBlind_EqOrSemi : caseBlind EqOrSemi.
Proof.
  intros x. cbn beta. unfold EQUALS, SEMI.
  rewrite !foldCase_plain by lia. reflexivity.
Qed.

Lemma caseBlind_ParenOrBrace : caseBlind ParenOrBrace.
Proof.
  intros x. cbn beta. unfold LPAREN, LBRACE.
  rewrite !foldCase_plain by lia. reflexivity.
Qed.

Lemma caseBlind_seqOf (rs : list regex) :
  Forall caseBlind rs -> caseBlind (seqOf rs).
Proof.
  induction 1 as [|r rs Hr Hrs IH]; [exact I|].
  destruct rs as [|r' rs]; [exact Hr|].
  change (seqOf (r :: r' :: rs)) with (Cat r (seqOf (r' :: rs))).
  split; assumption.
Qed.

Lemma caseBlind_anyOf (rs : list regex) :
  Forall caseBlind rs -> caseBlind (anyOf rs).
Proof.
  induction 1 as [|r rs Hr Hrs IH]; [intros x; reflexivity|].
  destruct rs as [|r' rs]; [exact Hr|].
  change (anyOf (r :: r' :: rs)) with (Alt r (anyOf (r' :: rs))).
  split; assumption.
Qed.

Lemma caseBlind_KwI (kw : string) : caseBlind (KwI kw).
Proof.
  unfold KwI. apply caseBlind_seqOf.
  induction (lit kw) as [|a w IH]; constructor;
    [apply caseBlind_ChrI|exact IH].
Qed.

Lemma caseBlind_keywords (ks : list string) : caseBlind (keywords ks).
Proof.
  unfold keywords. apply caseBlind_anyOf.
  induction ks as [|k ks IH]; constructor;
    [apply caseBlind_KwI|exact IH].
Qed.

Ltac case_blind :=
  unfold reModifiers, reArrowAssignment, Plus, Opt;
  cbn [caseBlind seqOf anyOf];
  repeat split;
  solve [ exact I | apply caseBlind_ChrI | apply caseBlind_S
        | apply caseBlind_W | apply caseBlind_WAngle
        | apply caseBlind_EqOrSemi | apply caseBlind_ParenOrBrace
        | apply caseBlind_KwI | apply caseBlind_keywords ].

Lemma caseBlind_reFunctionJs : caseBlind reFunctionJs.
Proof. unfold reFunctionJs. case_blind. Qed.

Lemma caseBlind_reFunctionMethod : caseBlind reFunctionMethod.
Proof. unfold reFunctionMethod. case_blind. Qed.

Lemma caseBlind_reFunctionDef : caseBlind reFunctionDef.
Proof. unfold reFunctionDef. case_blind. Qed.

Lemma caseBlind_reVariableKeyword : caseBlind reVariableKeyword.
Proof. unfold reVariableKeyword. case_blind. Qed.

Lemma caseBlind_reVariableField : caseBlind reVariableField.
Proof. unfold reVariableField. case_blind. Qed.

Lemma caseBlind_reClassKeyword : caseBlind reClassKeyword.
Proof. unfold reClassKeyword. case_blind. Qed.

Lemma caseBlind_reClassModified : caseBlind reClassModified.
Proof. unfold reClassModified. case_blind. Qed.

Lemma caseBlind_reImportExport : caseBlind reImportExport.
Proof. unfold reImportExport. case_blind. Qed.

Lemma caseBlind_reControlFlow : caseBlind reControlFlow.
Proof. unfold reControlFlow. case_blind. Qed.

Lemma caseBlind_reLeading (kw : string) (d : char) :
  caseBlind (reLeading kw d).
Proof. unfold reLeading. case_blind. Qed.

Lemma isSome_orElse (a : option captures) (b : unit -> option captures) :
  isSome (orElse a b) = isSome a || isSome (b tt).
Proof. now destruct a. Qed.

Lemma sameUpToCase_length (s t : jsstring) :
  sameUpToCase s t -> List.length s = List.length t.
Proof.
  unfold sameUpToCase. intros H.
  rewrite <- (length_map foldCase s), H. apply length_map.
Qed.

(** On strings equal up to case a case-blind pattern succeeds or fails
    alike, provided the continuations do. *)
Lemma run_case (r : regex) :
  caseBlind r ->
  forall pos s t c1 c2 (k1 k2 : cont),
    sameUpToCase s t ->
    (forall pos' s' t' c1' c2',
        sameUpToCase s' t' ->
        isSome (k1 pos' s' c1') = isSome (k2 pos' t' c2')) ->
    isSome (run r pos s c1 k1) = isSome (run r pos t c2 k2).
Proof.
  induction r as [| |p|r1 IH1 r2 IH2|r1 IH1 r2 IH2|r1 IH1|n r1 IH1];
    intros Hb pos s t c1 c2 k1 k2 Hst Hk; cbn [caseBlind] in Hb;
    cbn [run].
  - now apply Hk.
  - destruct (Nat.eqb pos 0); [now apply Hk|reflexivity].
  - unfold sameUpToCase in Hst.
    destruct s as [|x s], t as [|y t]; try discriminate; [reflexivity|].
    cbn [List.map] in Hst. injection Hst as Hxy Hst.
    rewrite <- (Hb x), <- (Hb y), Hxy.
    destruct (p (foldCase y)); [now apply Hk|reflexivity].
  - destruct Hb as [Hb1 Hb2].
    apply IH1; [exact Hb1|exact Hst|].
    intros. now apply IH2.
  - destruct Hb as [Hb1 Hb2].
    rewrite !isSome_orElse.
    f_equal; [now apply IH1|now apply IH2].
  - rewrite <- (sameUpToCase_length s t Hst).
    generalize (List.length s) as fuel. intros fuel.
    revert pos s t c1 c2 Hst.
    induction fuel as [|fuel IHf]; intros pos s t c1 c2 Hst;
      cbn [starLoop].
    + now apply Hk.
    + rewrite !isSome_orElse. f_equal; [|now apply Hk].
      apply IH1; [exact Hb|exact Hst|].
      intros pos' s' t' c1' c2' Hst'.
      rewrite (sameUpToCase_length s' t' Hst').
      rewrite (sameUpToCase_length s t Hst).
      destruct (Nat.ltb _ _); [now apply IHf|reflexivity].
  - apply IH1; [exact Hb|exact Hst|].
    intros. now apply Hk.
Qed.

(** [test] with a case-blind pattern does not see the case of letters. *)
Lemma test_case (r : regex) (s t : jsstring) :
  caseBlind r -> sameUpToCase s t -> test r s = test r t.
Proof.
  intros Hb. unfold test, exec. generalize 0 as pos. revert t.
  assert (Hrun : forall pos s t,
             sameUpToCase s t ->
             isSome (run r pos s noCaptures accept) =
             isSome (run r pos t noCaptures accept)).
  { intros pos s' t' Hst. apply run_case; auto. }
  induction s as [|x s IH]; intros t pos Hst.
  - assert (t = []) as ->.
    { destruct t; [reflexivity|discriminate Hst]. }
    reflexivity.
  - destruct t as [|y t]; [discriminate Hst|].
    pose proof (Hrun pos _ _ Hst) as H0.
    cbn [execFrom].
    destruct (run r pos (x :: s) noCaptures accept),
             (run r pos (y :: t) noCaptures accept);
      try discriminate H0; [reflexivity|].
    apply IH. unfold sameUpToCase in *. cbn [List.map] in Hst.
    now injection Hst.
Qed.

End LetterCase.

(** X7.  The category of a line, and the kind [getControlFlowType] gives
    it, do not depend on the case of its ASCII letters: every test of the
    cascade carries the [i] flag. *)
Theorem category_ignores_letter_case (s t : jsstring) :
  sameUpToCase s t ->
  category (classify s) = category (classify t) /\
  getControlFlowType s = getControlFlowType t.
Proof.
  intros Hst. split.
  - rewrite !category_cascade.
    unfold isFunctionDeclaration, isVariableDeclaration, isClassDeclaration,
      isImportExport, isControlFlow.
    rewrite (test_case reFunctionJs s t caseBlind_reFunctionJs Hst),
      (test_case reFunctionMethod s t caseBlind_reFunctionMethod Hst),
      (test_case reFunctionDef s t caseBlind_reFunctionDef Hst),
      (test_case reVariableKeyword s t caseBlind_reVariableKeyword Hst),
      (test_case reVariableField s t caseBlind_reVariableField Hst),
      (test_case reClassKeyword s t caseBlind_reClassKeyword Hst),
      (test_case reClassModified s t caseBlind_reClassModified Hst),
      (test_case reImportExport s t caseBlind_reImportExport Hst),
      (test_case reControlFlow s t caseBlind_reControlFlow Hst).
    reflexivity.
  - unfold getControlFlowType.
    rewrite !(fun kw d =>
                test_case (reLeading kw d) s t (caseBlind_reLeading kw d) Hst).
    reflexivity.
Qed.

Lemma category_ignores_letter_case_witness :
  category (classify (lit "Public Static Void Main(")) =
    category (classify (lit "public static void main(")) /\
  getControlFlowType (lit "Public Static Void Main(") =
    getControlFlowType (lit "public static void main(").
Proof.
  apply (category_ignores_letter_case
           (lit "Public Static Void Main(")
           (lit "public static void main(")).
  reflexivity.
Defined.

(* ------------------------------------------------------------------ *)
(** ** Indentation and the inserted line *)

Section InsertedLine.

Lemma trimStart_blank_app (indent s : jsstring) :
  isBlank indent = true -> trimStart (indent ++ s) = trimStart s.
Proof.
  unfold isBlank.
  induction indent as [|x indent IH]; [reflexivity|].
  cbn [forallb app trimStart]. intros H.
  apply andb_true_iff in H. destruct H as [Hx Hi].
  rewrite Hx. now apply IH.
Qed.

Lemma leadingWhiteSpace_blank_app (indent s : jsstring) :
  isBlank indent = true ->
  leadingWhiteSpace (indent ++ s) = indent ++ leadingWhiteSpace s.
Proof.
  unfold isBlank.
  induction indent as [|x indent IH]; [reflexivity|].
  cbn [forallb app leadingWhiteSpace]. intros H.
  apply andb_true_iff in H. destruct H as [Hx Hi].
  rewrite Hx. now rewrite IH.
Qed.

Lemma insertComment_indent (n : nat) (indent line comment : jsstring) :
  isBlank indent = true ->
  insertComment n (indent ++ line) comment =
    {| editLine := n;
       editColumn := 1;
       editText := indent ++ editText (insertComment n line comment);
       caretLine := n;
       caretColumn :=
         List.length indent + caretColumn (insertComment n line comment) |}.
Proof.
  intros Hb. unfold insertComment. cbn [editText caretColumn].
  rewrite !indentationOf_leadingWhiteSpace.
  rewrite (leadingWhiteSpace_blank_app indent line Hb).
  rewrite length_app, <- app_assoc. f_equal. lia.
Qed.

Lemma wordChar_notLF (x : char) : isWordChar x = true -> notLF x = true.
Proof.
  unfold isWordChar, notLF, LF. intros H.
  apply negb_true_iff, N.eqb_neq. intros ->. discriminate H.
Qed.

Lemma oneLine_app (a b : jsstring) :
  oneLine (a ++ b) = oneLine a && oneLine b.
Proof. apply forallb_app. Qed.

Lemma oneLine_identifier (id : jsstring) : isIdentifier id -> oneLine id = true.
Proof.
  intros [_ H]. exact (forallb_weaken _ _ id wordChar_notLF H).
Qed.

Lemma oneLine_numberToString (n : nat) : oneLine (numberToString n) = true.
Proof.
  unfold numberToString. induction (Nat.to_uint n); cbn; auto.
Qed.

Lemma oneLine_firstn (n : nat) (s : jsstring) :
  oneLine s = true -> oneLine (firstn n s) = true.
Proof.
  revert n. induction s as [|x s IH]; intros [|n] H; try reflexivity.
  cbn [firstn oneLine forallb] in *.
  apply andb_true_iff in H. destruct H as [Hx Hs].
  rewrite Hx. now apply IH.
Qed.

Lemma oneLine_function_label (t : jsstring) :
  oneLine (lit "// " ++
           labelled "Function" "Function definition"
                    (extractFunctionName t)) = true.
Proof.
  unfold labelled.
  destruct (extractFunctionName t) as [[|c w]|] eqn:E; try reflexivity.
  rewrite !oneLine_app.
  now rewrite (oneLine_identifier _ (extractFunctionName_identifier _ _ E)).
Qed.

Lemma oneLine_contextComment (t : jsstring) :
  oneLine (contextComment t) = true.
Proof.
  unfold contextComment.
  destruct (isFunctionDeclaration t); [apply oneLine_function_label|].
  destruct (isVariableDeclaration t) eqn:Ev.
  { destruct (variable_name_found t Ev) as (id & -> & Hid).
    unfold labelled. destruct id as [|c w]; [reflexivity|].
    rewrite !oneLine_app. now rewrite (oneLine_identifier _ Hid). }
  destruct (isClassDeclaration t) eqn:Ec.
  { destruct (class_name_found t Ec) as (id & -> & Hid).
    unfold labelled. destruct id as [|c w]; [reflexivity|].
    rewrite !oneLine_app. now rewrite (oneLine_identifier _ Hid). }
  destruct (isImportExport t); [reflexivity|].
  destruct (isControlFlow t); [|reflexivity].
  unfold getControlFlowType.
  repeat match goal with
         | |- context [if ?b then _ else _] => destruct b
         end; reflexivity.
Qed.

Lemma oneLine_linesComment (lines : list jsstring) :
  oneLine (linesComment lines) = true.
Proof.
  assert (Hmulti : forall ls,
             oneLine
               (if Nat.ltb 0 (functionCount ls)
                then lit "// Code block with " ++
                     numberToString (functionCount ls) ++
                     lit " function" ++ plural (functionCount ls)
                else if Nat.ltb 0 (variableCount ls)
                then lit "// Code block with " ++
                     numberToString (variableCount ls) ++
                     lit " variable" ++ plural (variableCount ls)
                else lit "// Code block (" ++
                     numberToString (List.length ls) ++ lit " lines)")
             = true).
  { intros ls. unfold plural.
    destruct (Nat.ltb 0 (functionCount ls));
      [|destruct (Nat.ltb 0 (variableCount ls))];
      rewrite !oneLine_app, oneLine_numberToString;
      try reflexivity;
      match goal with
      | |- context [if ?b then _ else _] => destruct b
      end; reflexivity. }
  unfold linesComment.
  destruct lines as [|l [|l' ls]]; try apply Hmulti.
  destruct (isFunctionDeclaration (trim l));
    [apply oneLine_function_label|reflexivity].
Qed.

Lemma insertComment_one_line (n : nat) (line comment : jsstring) :
  oneLine line = true -> oneLine comment = true ->
  exists t, editText (insertComment n line comment) = t ++ [LF] /\
            oneLine t = true.
Proof.
  intros Hl Hc. unfold insertComment. cbn [editText].
  exists (indentationOf line ++ comment).
  split; [now rewrite <- app_assoc|].
  rewrite oneLine_app, Hc.
  unfold indentationOf, substring0. now rewrite oneLine_firstn.
Qed.

Lemma length_split (s : jsstring) :
  List.length (split LF s) = S (lineFeeds s).
Proof.
  unfold lineFeeds.
  induction s as [|x s IH]; [reflexivity|].
  cbn [split filter]. rewrite (N.eqb_sym LF x).
  destruct (N.eqb x LF).
  - cbn [List.length]. now rewrite IH.
  - destruct (split LF s) as [|l ls] eqn:E;
      [now destruct (split_nonempty LF s)|].
    cbn [List.length] in *. exact IH.
Qed.

End InsertedLine.

(** X8.  Indentation in front of the target line changes neither comment:
    both entry points insert the same comment, with the additional
    indentation copied in front of it, and move the caret right by its
    length. *)
Theorem indentation_is_copied (n : nat)
        (indent line selectedText : jsstring) :
  isBlank indent = true ->
  let caret := generateCommentForCurrentContext n line in
  let selection := generateCommentForSelection n line selectedText in
  generateCommentForCurrentContext n (indent ++ line) =
    {| editLine := n; editColumn := 1;
       editText := indent ++ editText caret;
       caretLine := n;
       caretColumn := List.length indent + caretColumn caret |} /\
  generateCommentForSelection n (indent ++ line) selectedText =
    {| editLine := n; editColumn := 1;
       editText := indent ++ editText selection;
       caretLine := n;
       caretColumn := List.length indent + caretColumn selection |}.
Proof.
  intros Hb caret selection. subst caret selection.
  unfold generateCommentForCurrentContext, generateCommentForSelection.
  split; [|now apply insertComment_indent].
  unfold trim. rewrite (trimStart_blank_app indent line Hb).
  now apply insertComment_indent.
Qed.

Lemma indentation_is_copied_witness :
  editText (generateCommentForCurrentContext 7 (lit "  " ++ lit "try {")) =
    lit "  " ++ lit "// Error handling statement" ++ [LF].
Proof.
  refine (eq_trans
            (f_equal editText
               (proj1 (indentation_is_copied 7 (lit "  ") (lit "try {") []
                                             _))) _);
    reflexivity.
Defined.

(** X9.  When the target line holds no line feed, as the lines of an editor
    model do, the text either entry point inserts is exactly one line: it
    ends with a line feed and has no other, whatever is selected. *)
Theorem inserted_text_is_one_line (n : nat) (line selectedText : jsstring) :
  oneLine line = true ->
  (exists t,
      editText (generateCommentForCurrentContext n line) = t ++ [LF] /\
      oneLine t = true) /\
  (exists t,
      editText (generateCommentForSelection n line selectedText) =
        t ++ [LF] /\
      oneLine t = true).
Proof.
  intros Hl. split.
  - apply insertComment_one_line; [exact Hl|apply oneLine_contextComment].
  - apply insertComment_one_line; [exact Hl|apply oneLine_linesComment].
Qed.

Lemma inserted_text_is_one_line_witness :
  exists t,
    editText (generateCommentForSelection 1 (lit "  a();") ifBlock) =
      t ++ [LF] /\
    oneLine t = true.
Proof.
  apply (proj2 (inserted_text_is_one_line 1 (lit "  a();") ifBlock
                                          eq_refl)).
Defined.

(** X10.  A selection of several lines without a function line is reported
    by its variable lines when it has some, with the plural for more than
    one, and otherwise by its number of lines, which is one more than the
    number of line feeds selected: empty lines and a selected final line
    feed count. *)
Theorem selection_without_functions (selectedText : jsstring) :
  let lines := split LF selectedText in
  0 < lineFeeds selectedText ->
  functionCount lines = 0 ->
  (0 < variableCount lines ->
   selectionComment selectedText =
     lit "// Code block with " ++ numberToString (variableCount lines) ++
     lit " variable" ++
     (if Nat.ltb 1 (variableCount lines) then lit "s" else [])) /\
  (variableCount lines = 0 ->
   selectionComment selectedText =
     lit "// Code block (" ++
     numberToString (S (lineFeeds selectedText)) ++ lit " lines)").
Proof.
  intros lines Hlf Hf.
  pose proof (length_split selectedText) as Hlen. fold lines in Hlen.
  unfold selectionComment. fold lines. unfold linesComment.
  destruct lines as [|l [|l' ls]]; cbn [List.length] in Hlen; try lia.
  rewrite Hf. change (Nat.ltb 0 0) with false. cbv iota.
  split; intros Hv.
  - apply Nat.ltb_lt in Hv. rewrite Hv. reflexivity.
  - rewrite Hv. change (Nat.ltb 0 0) with false. cbv iota.
    now rewrite <- Hlen.
Qed.

Lemma selection_without_functions_witness :
  selectionComment (lit "}" ++ [LF; LF] ++ lit "}" ++ [LF]) =
    lit "// Code block (4 lines)".
Proof.
  refine (eq_trans
            (proj2 (selection_without_functions
                      (lit "}" ++ [LF; LF] ++ lit "}" ++ [LF]) _ _) _) _).
  - vm_compute. lia.
  - vm_compute. reflexivity.
  - vm_compute. reflexivity.
  - vm_compute. reflexivity.
Defined.

(* ------------------------------------------------------------------ *)
(** ** Control-flow kinds and the control-flow test *)

Section KindsAndTest.

Lemma leading_isControlFlow (kw : string) (d : char) (line : jsstring) :
  In kw ["if"; "else"; "for"; "while"; "do"; "switch"; "case"; "try";
         "catch"; "finally"] ->
  plainDelimiter d -> d = LPAREN \/ d = LBRACE ->
  test (reLeading kw d) line = true -> isControlFlow line = true.
Proof.
  intros Hin Hd Hpb.
  unfold test at 1, reLeading. cbn [seqOf]. rewrite exec_anchored.
  destruct (run _ 0 line noCaptures accept) as [m|] eqn:E; [|discriminate].
  intros _.
  destruct (run_sound (fun _ => True) _ (groupsSat_trivial _)
                      _ _ _ _ _ (capOk_noCaptures _) E)
    as (u & post & c' & -> & Hm & _).
  destruct (matches_Cat_inv _ _ _ Hm) as (uk & t1 & -> & Hkw & H1).
  destruct (matches_Cat_inv _ _ _ H1) as (us & ud & -> & Hsp & Hdl).
  destruct (matches_Class_inv _ _ Hdl) as (x & -> & Hx).
  rewrite (proj2 Hd) in Hx. apply N.eqb_eq in Hx. subst x.
  unfold isControlFlow. apply test_complete_start; [|reflexivity].
  unfold reControlFlow. cbn [seqOf].
  change (uk ++ us ++ [d]) with ([] ++ uk ++ us ++ [d]).
  constructor; [constructor|].
  constructor; [|constructor; [exact Hsp|]].
  - constructor. unfold keywords.
    apply (matches_anyOf _ (KwI kw)); [|exact Hkw].
    now apply in_map.
  - unfold ParenOrBrace. constructor.
    destruct Hpb as [-> | ->]; reflexivity.
Qed.

End KindsAndTest.

(** X11.  [getControlFlowType] gives a specific kind (Conditional, Loop,
    Switch, Error handling) only to lines that [isControlFlow] accepts; on
    any other line it answers the generic [Control flow]. *)
Theorem specific_kind_implies_control_flow (line : jsstring) :
  getControlFlowType line <> lit "Control flow" ->
  isControlFlow line = true.
Proof.
  unfold getControlFlowType. intros H.
  destruct (test (reLeading "if" LPAREN) line) eqn:E1.
  { apply (leading_isControlFlow "if" LPAREN);
      [cbn; auto 12|apply plainDelimiter_LPAREN|auto|exact E1]. }
  destruct (test (reLeading "for" LPAREN) line) eqn:E2.
  { apply (leading_isControlFlow "for" LPAREN);
      [cbn; auto 12|apply plainDelimiter_LPAREN|auto|exact E2]. }
  destruct (test (reLeading "while" LPAREN) line) eqn:E3.
  { apply (leading_isControlFlow "while" LPAREN);
      [cbn; auto 12|apply plainDelimiter_LPAREN|auto|exact E3]. }
  destruct (test (reLeading "switch" LPAREN) line) eqn:E4.
  { apply (leading_isControlFlow "switch" LPAREN);
      [cbn; auto 12|apply plainDelimiter_LPAREN|auto|exact E4]. }
  destruct (test (reLeading "try" LBRACE) line) eqn:E5.
  { apply (leading_isControlFlow "try" LBRACE);
      [cbn; auto 12|apply plainDelimiter_LBRACE|auto|exact E5]. }
  now elim H.
Qed.

Lemma specific_kind_implies_control_flow_witness :
  isControlFlow (lit "while (busy) {") = true.
Proof.
  apply (specific_kind_implies_control_flow (lit "while (busy) {")).
  vm_compute. discriminate.
Defined.

(* ------------------------------------------------------------------ *)
(** ** Functions without a name *)

Section Unnamed.

Lemma matches_Alt_inv (r1 r2 : regex) (u : jsstring) :
  matches (Alt r1 r2) u -> matches r1 u \/ matches r2 u.
Proof.
  intros H. inversion H; subst; auto.
Qed.

Lemma no_name_no_match (line : jsstring) :
  extractFunctionName line = None ->
  exec reNameFunction line = None /\
  exec reNameConst line = None /\
  exec reNameCall line = None.
Proof.
  unfold extractFunctionName.
  destruct (exec reNameFunction line) as [m|] eqn:E1.
  { intros H. destruct (exec_sets_group1 reNameFunction _ _ eq_refl E1) as [w Hw].
    congruence. }
  destruct (exec reNameConst line) as [m|] eqn:E2.
  { intros H. destruct (exec_sets_group1 reNameConst _ _ eq_refl E2) as [w Hw].
    congruence. }
  destruct (exec reNameCall line) as [m|] eqn:E3.
  { intros H. destruct (exec_sets_group1 reNameCall _ _ eq_refl E3) as [w Hw].
    congruence. }
  auto.
Qed.

Lemma method_test_finds_call (line : jsstring) :
  test reFunctionMethod line = true -> exec reNameCall line <> None.
Proof.
  unfold test.
  destruct (exec reFunctionMethod line) as [m|] eqn:E; [|discriminate].
  intros _.
  destruct (exec_matches _ _ _ E) as (pre & u & post & -> & Hm).
  unfold reFunctionMethod in Hm. cbn [seqOf] in Hm.
  destruct (matches_Cat_inv _ _ _ Hm) as (um & t1 & -> & Hmod & H1).
  destruct (matches_Cat_inv _ _ _ H1) as (ut & t2 & -> & Hty & H2).
  destruct (matches_Cat_inv _ _ _ H2) as (us & t3 & -> & Hsp & H3).
  destruct (matches_Cat_inv _ _ _ H3) as (uw & t4 & -> & Hw & H4).
  destruct (matches_Cat_inv _ _ _ H4) as (us' & up & -> & Hsp' & Hp).
  replace (pre ++ (um ++ ut ++ us ++ uw ++ us' ++ up) ++ post)
    with ((pre ++ um ++ ut ++ us) ++ (uw ++ us' ++ up) ++ post)
    by (now rewrite <- !app_assoc).
  apply exec_complete; [|reflexivity].
  unfold reNameCall. cbn [seqOf].
  repeat (constructor; try assumption).
  now apply matches_Chr_LPAREN.
Qed.

Lemma unnamed_forms (line : jsstring) :
  isFunctionDeclaration line = true ->
  extractFunctionName line = None ->
  test reUnnamedFunction line = true.
Proof.
  intros Hf Hn.
  destruct (no_name_no_match line Hn) as (Nf & Nc & Ncall).
  unfold isFunctionDeclaration in Hf.
  destruct (test reFunctionMethod line) eqn:Em.
  { now destruct (method_test_finds_call line Em). }
  destruct (test reFunctionDef line) eqn:Ed.
  { rewrite (def_test_subsumed line Ed) in Em. discriminate. }
  rewrite !orb_false_r in Hf.
  revert Hf Nf Nc Ncall.
  unfold test at 1, reFunctionJs. rewrite exec_anchored.
  destruct (run _ 0 line noCaptures accept) as [m|] eqn:E; [|discriminate].
  intros _.
  destruct (run_sound (fun _ => True) _ (groupsSat_trivial _)
                      _ _ _ _ _ (capOk_noCaptures _) E)
    as (u & post & c' & -> & Hm & _).
  apply matches_Group_inv in Hm. cbn [anyOf] in Hm.
  intros Nf Nc Ncall.
  destruct (matches_Alt_inv _ _ _ Hm) as [H1|Hm1].
  { exfalso. revert Nf. cbn [seqOf] in H1.
    destruct (matches_Cat_inv _ _ _ H1) as (uf & t1 & -> & Hkw & H2).
    destruct (matches_Cat_inv _ _ _ H2) as (us & uw & -> & Hsp & Hw).
    change ((uf ++ us ++ uw) ++ post) with ([] ++ (uf ++ us ++ uw) ++ post).
    apply exec_complete; [|reflexivity].
    unfold reNameFunction. cbn [seqOf].
    repeat (constructor; try assumption). }
  destruct (matches_Alt_inv _ _ _ Hm1) as [H2|Hm2].
  { exfalso. revert Nc. unfold reArrowAssignment in H2. cbn [seqOf] in H2.
    destruct (matches_Cat_inv _ _ _ H2) as (uc & t1 & -> & Hkw & H3).
    destruct (matches_Cat_inv _ _ _ H3) as (us & t2 & -> & Hsp & H4).
    destruct (matches_Cat_inv _ _ _ H4) as (uw & t3 & -> & Hw & H5).
    destruct (matches_Cat_inv _ _ _ H5) as (us' & t4 & -> & Hsp' & H6).
    destruct (matches_Cat_inv _ _ _ H6) as (ue & t5 & -> & He & H7).
    replace ((uc ++ us ++ uw ++ us' ++ ue ++ t5) ++ post)
      with ([] ++ (uc ++ us ++ uw ++ us' ++ ue) ++ (t5 ++ post))
      by (cbn [app]; now rewrite <- !app_assoc).
    apply exec_complete; [|reflexivity].
    unfold reNameConst. cbn [seqOf].
    repeat (constructor; try assumption). }
  destruct (matches_Alt_inv _ _ _ Hm2) as [H3|Hm3].
  { exfalso. revert Ncall. cbn [seqOf] in H3.
    destruct (matches_Cat_inv _ _ _ H3) as (uw & t1 & -> & Hw & H4).
    destruct (matches_Cat_inv _ _ _ H4) as (us & up & -> & Hsp & Hp).
    change ((uw ++ us ++ up) ++ post) with ([] ++ (uw ++ us ++ up) ++ post).
    apply exec_complete; [|reflexivity].
    unfold reNameCall. cbn [seqOf].
    repeat (constructor; try assumption).
    now apply matches_Chr_LPAREN. }
  apply test_complete_start; [|reflexivity].
  unfold reUnnamedFunction. cbn [anyOf].
  change u with ([] ++ u). constructor; [constructor|exact Hm3].
Qed.

End Unnamed.

(** X12.  The comment [Function definition], written when no name is
    found, only arises for a line that starts with [async function], with
    [<name>: function], with [export function] or with [function*]: a line
    accepted through any other form of [isFunctionDeclaration] always gets
    a name. *)
Theorem function_definition_forms (trimmedLine : jsstring) :
  contextComment trimmedLine = lit "// Function definition" ->
  isFunctionDeclaration trimmedLine = true /\
  extractFunctionName trimmedLine = None /\
  test reUnnamedFunction trimmedLine = true.
Proof.
  intros H.
  assert (Hfn : isFunctionDeclaration trimmedLine = true /\
                extractFunctionName trimmedLine = None).
  { revert H. unfold contextComment, labelled.
    destruct (isFunctionDeclaration trimmedLine).
    - destruct (extractFunctionName trimmedLine) as [[|c w]|] eqn:E.
      + destruct (extractFunctionName_identifier _ _ E) as [Hne _].
        now elim Hne.
      + intros H. vm_compute in H. discriminate H.
      + auto.
    - destruct (isVariableDeclaration trimmedLine).
      { destruct (extractVariableName trimmedLine) as [[|c w]|];
          intros H; vm_compute in H; discriminate H. }
      destruct (isClassDeclaration trimmedLine).
      { destruct (extractClassName trimmedLine) as [[|c w]|];
          intros H; vm_compute in H; discriminate H. }
      destruct (isImportExport trimmedLine);
        [intros H; vm_compute in H; discriminate H|].
      destruct (isControlFlow trimmedLine);
        [|intros H; vm_compute in H; discriminate H].
      unfold getControlFlowType.
      repeat match goal with
             | |- context [if ?b then _ else _] => destruct b
             end; intros H; vm_compute in H; discriminate H. }
  destruct Hfn as [Hf Hn].
  repeat split; auto. now apply unnamed_forms.
Qed.

Lemma function_definition_forms_witness :
  isFunctionDeclaration (lit "function* () {") = true /\
  extractFunctionName (lit "function* () {") = None /\
  test reUnnamedFunction (lit "function* () {") = true.
Proof.
  apply (function_definition_forms (lit "function* () {")).
  vm_compute. reflexivity.
Defined.
